(** * pixelui: the imgui-to-Pixel frame translator and input forwarder

    A shallow embedding of [ui.go] and [input.go].  Go's [float64] is
    Rocq's primitive binary64 [float], each operation rounded on its own
    (no fused multiply-add, as on amd64); Go's fixed-width integers are
    [Z] with the wrap-around written out; a panic is [None] in the option
    monad. *)

From Stdlib Require Import ZArith Lia Floats Bool.
From stdpp Require Import base option list gmap.

Local Open Scope Z_scope.

(** ** Go's fixed-width integers *)

Module GoInt.

(** [uint8(z)], [uint16(z)], [uint32(z)], [uintptr(z)]: keep the low bits. *)
Definition uint8 (z : Z) : Z := z mod 2 ^ 8.
Definition uint16 (z : Z) : Z := z mod 2 ^ 16.
Definition uint32 (z : Z) : Z := z mod 2 ^ 32.
Definition uintptr (z : Z) : Z := z mod 2 ^ 64.

(** [int] is 64 bits wide on the platforms cgo's imgui binding runs on;
    [int32] is the representation of [imgui.Key]. *)
Definition int (z : Z) : Z := (z + 2 ^ 63) mod 2 ^ 64 - 2 ^ 63.
Definition int32 (z : Z) : Z := (z + 2 ^ 31) mod 2 ^ 32 - 2 ^ 31.

Definition is_uint8 (z : Z) : Prop := 0 <= z < 2 ^ 8.
Definition is_uint32 (z : Z) : Prop := 0 <= z < 2 ^ 32.
Definition is_int (z : Z) : Prop := - 2 ^ 63 <= z < 2 ^ 63.

End GoInt.

(** ** image/color *)

Module Color.

(** [color.RGBA]: four [uint8] channels. *)
Record RGBA : Type := mkRGBA { R : Z; G : Z; B : Z; A : Z }.

(** [func (c RGBA) RGBA() (r, g, b, a uint32)]: each channel widened to
    16 bits by [r |= r << 8]. *)
Definition widen (c : Z) : Z := Z.lor c (Z.shiftl c 8).

End Color.

(** ** Go's [math] package *)

Module Math.

Local Open Scope float_scope.

(** [Signbit(x)] on a zero: is it the negative zero. *)
Definition is_neg_zero (x : float) : bool :=
  match classify x with NZero => true | _ => false end.

(** [math.Min]: [-Inf] wins, then [NaN], then [-0] over [+0], then [<]. *)
Definition Min (x y : float) : float :=
  if PrimFloat.eqb x neg_infinity || PrimFloat.eqb y neg_infinity then neg_infinity
  else if is_nan x || is_nan y then nan
  else if PrimFloat.eqb x 0 && PrimFloat.eqb x y then
    (if is_neg_zero x then x else y)
  else if PrimFloat.ltb x y then x else y.

(** [math.Max]: [+Inf] wins, then [NaN], then [+0] over [-0], then [>]. *)
Definition Max (x y : float) : float :=
  if PrimFloat.eqb x infinity || PrimFloat.eqb y infinity then infinity
  else if is_nan x || is_nan y then nan
  else if PrimFloat.eqb x 0 && PrimFloat.eqb x y then
    (if is_neg_zero x then y else x)
  else if PrimFloat.ltb y x then x else y.

End Math.

(** ** The Pixel engine (github.com/gopxl/pixel/v2)

    The geometry, colour, input and triangle-buffer operations that
    [ui.go] and [input.go] call, as the engine defines them. *)

Module Vec.

Local Open Scope float_scope.

(** [pixel.Vec]. *)
Record t : Type := V { X : float; Y : float }.

(** [pixel.ZV]. *)
Definition ZV : t := V 0 0.

Definition Add (u v : t) : t := V (X u + X v) (Y u + Y v).
Definition Sub (u v : t) : t := V (X u - X v) (Y u - Y v).
Definition Scaled (u : t) (c : float) : t := V (X u * c) (Y u * c).
Definition ScaledXY (u v : t) : t := V (X u * X v) (Y u * Y v).
Definition Map (u : t) (f : float -> float) : t := V (f (X u)) (f (Y u)).

(** [pixel.Lerp(a, b, t)]. *)
Definition Lerp (a b : t) (c : float) : t :=
  Add (Scaled a (1 - c)) (Scaled b c).

End Vec.

Module Rect.

Local Open Scope float_scope.

(** [pixel.Rect]. *)
Record t : Type := mk { Min : Vec.t; Max : Vec.t }.

(** [pixel.R(minX, minY, maxX, maxY)]. *)
Definition R (minX minY maxX maxY : float) : t :=
  mk (Vec.V minX minY) (Vec.V maxX maxY).

Definition W (r : t) : float := Vec.X (Max r) - Vec.X (Min r).
Definition H (r : t) : float := Vec.Y (Max r) - Vec.Y (Min r).
Definition Size (r : t) : Vec.t := Vec.V (W r) (H r).
Definition Center (r : t) : Vec.t := Vec.Lerp (Min r) (Max r) 0.5.

(** [Rect.Norm]: the corners sorted componentwise with [math.Min] and
    [math.Max]. *)
Definition Norm (r : t) : t :=
  mk (Vec.V (Math.Min (Vec.X (Min r)) (Vec.X (Max r)))
            (Math.Min (Vec.Y (Min r)) (Vec.Y (Max r))))
     (Vec.V (Math.Max (Vec.X (Min r)) (Vec.X (Max r)))
            (Math.Max (Vec.Y (Min r)) (Vec.Y (Max r)))).

(** The four coordinates, in the order the shader's [vec4] holds them. *)
Definition coords (r : t) : list float :=
  [Vec.X (Min r); Vec.Y (Min r); Vec.X (Max r); Vec.Y (Max r)].

End Rect.

Module Matrix.

Local Open Scope float_scope.

(** [pixel.Matrix], a [[6]float64]. *)
Record t : Type := mk { m0 : float; m1 : float; m2 : float;
                        m3 : float; m4 : float; m5 : float }.

(** [pixel.IM]. *)
Definition IM : t := mk 1 0 0 1 0 0.

(** [Matrix.ScaledXY(around, scale)]: four parallel assignments over the
    array, in the engine's order. *)
Definition ScaledXY (m : t) (around scale : Vec.t) : t :=
  let a4 := m4 m - Vec.X around in
  let a5 := m5 m - Vec.Y around in
  let b0 := m0 m * Vec.X scale in
  let b2 := m2 m * Vec.X scale in
  let b4 := a4 * Vec.X scale in
  let b1 := m1 m * Vec.Y scale in
  let b3 := m3 m * Vec.Y scale in
  let b5 := a5 * Vec.Y scale in
  mk b0 b1 b2 b3 (b4 + Vec.X around) (b5 + Vec.Y around).

(** [Matrix.Project(u)]. *)
Definition Project (m : t) (u : Vec.t) : Vec.t :=
  Vec.V (m0 m * Vec.X u + m2 m * Vec.Y u + m4 m)
        (m1 m * Vec.X u + m3 m * Vec.Y u + m5 m).

End Matrix.

Module RGBA.

Local Open Scope float_scope.

(** [pixel.RGBA]: four [float64] channels. *)
Record t : Type := mk { R : float; G : float; B : float; A : float }.

(** [float64(r)] for a [uint32] [r]. *)
Definition of_uint32 (r : Z) : float := of_uint63 (Uint63.of_Z r).

(** [pixel.ToRGBA(c)] on a [color.RGBA]: the channels widened by
    [c.RGBA()] and divided by [0xffff]. *)
Definition ToRGBA (c : Color.RGBA) : t :=
  mk (of_uint32 (Color.widen (Color.R c)) / 65535)
     (of_uint32 (Color.widen (Color.G c)) / 65535)
     (of_uint32 (Color.widen (Color.B c)) / 65535)
     (of_uint32 (Color.widen (Color.A c)) / 65535).

End RGBA.

Module GLTriangles.

(** One vertex of [opengl.GLTriangles]: the attributes its setters write. *)
Record Vertex : Type := mkVertex {
  Position : Vec.t;
  Color : RGBA.t;
  Picture : Vec.t;
  Intensity : float;
  ClipRect : Rect.t
}.

(** The triangle buffer: its vertices in order. *)
Abbreviation t := (list Vertex).

(** The vertex [SetLen] appends when it grows the buffer. *)
Definition fresh : Vertex :=
  mkVertex Vec.ZV (RGBA.mk 1 1 1 1) Vec.ZV 0%float (Rect.R 0 0 0 0).

Definition Len (tris : t) : Z := Z.of_nat (length tris).

(** [SetLen(length)]: append fresh vertices or cut the tail; slicing by a
    negative length panics. *)
Definition SetLen (len : Z) (tris : t) : option t :=
  if len <? 0 then None
  else if Len tris <? len
       then Some (tris ++ replicate (Z.to_nat (len - Len tris)) fresh)
       else Some (take (Z.to_nat len) tris).

(** A setter writes into the backing slice at vertex [i]; an index outside
    the buffer panics. *)
Definition update (i : Z) (f : Vertex -> Vertex) (tris : t) : option t :=
  if (0 <=? i) && (i <? Len tris)
  then Some (alter f (Z.to_nat i) tris)
  else None.

Definition SetPosition (i : Z) (p : Vec.t) : t -> option t :=
  update i (fun v => mkVertex p (Color v) (Picture v) (Intensity v) (ClipRect v)).

Definition SetPicture (i : Z) (pic : Vec.t) (intensity : float) : t -> option t :=
  update i (fun v => mkVertex (Position v) (Color v) pic intensity (ClipRect v)).

Definition SetColor (i : Z) (c : RGBA.t) : t -> option t :=
  update i (fun v => mkVertex (Position v) c (Picture v) (Intensity v) (ClipRect v)).

Definition SetClipRect (i : Z) (r : Rect.t) : t -> option t :=
  update i (fun v => mkVertex (Position v) (Color v) (Picture v) (Intensity v) r).

End GLTriangles.

Module Pixel.

(** [pixel.Action]. *)
Inductive Action : Type := Release | Press | Repeat.

(** The keys of [pixel.Button] that [keyMap] names. *)
Inductive NamedButton : Type :=
| KeyTab | KeyLeft | KeyRight | KeyUp | KeyDown | KeyPageUp | KeyPageDown
| KeyHome | KeyEnd | KeyInsert | KeyDelete | KeyBackspace | KeySpace
| KeyEnter | KeyEscape | KeyA | KeyC | KeyV | KeyX | KeyY | KeyZ.

#[global] Instance NamedButton_eq_dec : EqDecision NamedButton.
Proof. solve_decision. Defined.

(** [pixel.Button] is an [int]; the engine fixes the numbering of its
    constants and which codes are keyboard buttons. *)
Record ButtonEnum : Type := mkButtonEnum {
  code : NamedButton -> Z;
  IsKeyboardButton : Z -> bool
}.

(** Distinct constants have distinct codes (a map literal with a repeated
    constant key does not compile). *)
Definition wf_enum (E : ButtonEnum) : Prop :=
  forall a b, code E a = code E b -> a = b.

(** [opengl.Window]: what the translator and the input queries read. *)
Record Window : Type := mkWindow {
  Bounds : Rect.t;
  MouseScroll : Vec.t
}.

(** [atlas.Atlas]: the frame of each texture id ([None]: an id the atlas
    cannot resolve) and the bounds of its textures. *)
Record Atlas : Type := mkAtlas {
  Frame : Z -> option Rect.t;
  Textures : list Rect.t
}.

End Pixel.

(** ** The imgui binding (github.com/AllenDang/cimgui-go/imgui) *)

Module Imgui.

(** [imgui.Vec2] and [imgui.Vec4]: [float32] fields; every [float32] is a
    [float64], so they are held as the [float64] of the same value. *)
Record Vec2 : Type := mkVec2 { X2 : float; Y2 : float }.
Record Vec4 : Type := mkVec4 { X : float; Y : float; Z : float; W : float }.

(** [imgui.Key] (an [int32]): the named keys start at 512. *)
Definition KeyTab : BinNums.Z := 512.
Definition KeyLeftArrow : BinNums.Z := 513.
Definition KeyRightArrow : BinNums.Z := 514.
Definition KeyUpArrow : BinNums.Z := 515.
Definition KeyDownArrow : BinNums.Z := 516.
Definition KeyPageUp : BinNums.Z := 517.
Definition KeyPageDown : BinNums.Z := 518.
Definition KeyHome : BinNums.Z := 519.
Definition KeyEnd : BinNums.Z := 520.
Definition KeyInsert : BinNums.Z := 521.
Definition KeyDelete : BinNums.Z := 522.
Definition KeyBackspace : BinNums.Z := 523.
Definition KeySpace : BinNums.Z := 524.
Definition KeyEnter : BinNums.Z := 525.
Definition KeyEscape : BinNums.Z := 526.
Definition KeyA : BinNums.Z := 546.
Definition KeyC : BinNums.Z := 548.
Definition KeyV : BinNums.Z := 567.
Definition KeyX : BinNums.Z := 569.
Definition KeyY : BinNums.Z := 570.
Definition KeyZ : BinNums.Z := 571.

(** [ImGuiKey_NamedKey_BEGIN]: the key held by slot 0 of the key-state
    table. *)
Definition NamedKey_BEGIN : BinNums.Z := 512.

(** [imgui.KeyData]. *)
Record KeyData : Type := mkKeyData {
  Down : bool;
  DownDuration : float;
  DownDurationPrev : float;
  AnalogValue : float
}.

Definition SetDown (v : bool) (k : KeyData) : KeyData :=
  mkKeyData v (DownDuration k) (DownDurationPrev k) (AnalogValue k).

(** [imgui.IO]: the fields the input forwarder reads and writes. *)
Record IO : Type := mkIO {
  KeysData : list KeyData;
  WantCaptureMouse : bool;
  WantCaptureKeyboard : bool
}.

Definition SetKeysData (kd : list KeyData) (io : IO) : IO :=
  mkIO kd (WantCaptureMouse io) (WantCaptureKeyboard io).

(** [imgui.DrawCmd]. [UserCallback] names the callback; [ElemCount] is a
    [uint32]; [TexID] is pointer sized. *)
Record DrawCmd : Type := mkDrawCmd {
  HasUserCallback : bool;
  UserCallback : BinNums.Z;
  ElemCount : BinNums.Z;
  ClipRect : Vec4;
  TexID : BinNums.Z
}.

(** [imgui.DrawList]: its commands and the base addresses of its vertex
    and index buffers. *)
Record DrawList : Type := mkDrawList {
  Commands : list DrawCmd;
  VertexBuffer : BinNums.Z;
  IndexBuffer : BinNums.Z
}.

(** [imgui.DrawData]: [CommandLists()]. *)
Definition DrawData : Type := list DrawList.

(** [VertexBufferLayout()] and [IndexBufferLayout()]. *)
Record Layout : Type := mkLayout {
  vertexSize : BinNums.Z;
  posOffset : BinNums.Z;
  uvOffset : BinNums.Z;
  colOffset : BinNums.Z;
  indexSize : BinNums.Z
}.

(** The process memory the unsafe pointer reads go through: what a load
    of each type yields at each address (no bounds are checked). *)
Record Memory : Type := mkMemory {
  load_uint16 : BinNums.Z -> BinNums.Z;
  load_Vec2 : BinNums.Z -> Vec2;
  load_uint32 : BinNums.Z -> BinNums.Z
}.

End Imgui.

(** ** pixelui *)

Module PixelUI.

Import GoInt.

(** A loop body run over a list in the option monad: the first panic
    stops the loop. *)
Fixpoint foldM {A S : Type} (f : A -> S -> option S) (l : list A) (s : S)
  : option S :=
  match l with
  | [] => Some s
  | a :: l' => s' ← f a s; foldM f l' s'
  end.

(** [type UI struct]: the fields the translator and the input queries
    use; [font] is [ui.font.ID()]. *)
Record UI : Type := mkUI {
  win : Pixel.Window;
  io : Imgui.IO;
  matrix : Matrix.t;
  shaderTris : GLTriangles.t;
  atlas : Pixel.Atlas;
  font : Z
}.

(** Modelled from the spec: [PV], the conversion of an [imgui.Vec2] to a
    [pixel.Vec], is not in [ui.go] or [input.go]; it decodes the two
    coordinates unchanged. *)
Definition PV (v : Imgui.Vec2) : Vec.t := Vec.V (Imgui.X2 v) (Imgui.Y2 v).

(** Modelled from the spec: [imguiRectToPixelRect], the conversion of an
    [imgui.Vec4] clip rectangle to a [pixel.Rect], is not in [ui.go] or
    [input.go]; the corners are taken field by field, the axis flip being
    the view matrix's. *)
Definition imguiRectToPixelRect (r : Imgui.Vec4) : Rect.t :=
  Rect.R (Imgui.X r) (Imgui.Y r) (Imgui.Z r) (Imgui.W r).

(** [func (ui *UI) updateMatrix()]. *)
Definition updateMatrix (ui : UI) : UI :=
  mkUI (win ui) (io ui)
       (Matrix.ScaledXY Matrix.IM (Rect.Center (Pixel.Bounds (win ui)))
                        (Vec.V 1 (-1)))
       (shaderTris ui) (atlas ui) (font ui).

(** [func recip(m float64) float64]. *)
Definition recip (m : float) : float := (1 / m)%float.

(** [func (ui *UI) calcData(frame pixel.Rect, uuvv pixel.Vec)];
    [Textures()[0]] panics on an atlas without texture. *)
Definition calcData (ui : UI) (frame : Rect.t) (uuvv : Vec.t) : option Vec.t :=
  tex ← head (Pixel.Textures (atlas ui));
  Some (Vec.ScaledXY
          (Vec.Add (Vec.ScaledXY uuvv (Rect.Size frame)) (Rect.Min frame))
          (Vec.Map (Rect.Size tex) recip)).

(** [func imguiColorToPixelColor(c uint32) color.RGBA]. *)
Definition imguiColorToPixelColor (c : Z) : Color.RGBA :=
  {| Color.A := uint8 (Z.land (Z.shiftr c 24) 255);
     Color.B := uint8 (Z.land (Z.shiftr c 16) 255);
     Color.G := uint8 (Z.land (Z.shiftr c 8) 255);
     Color.R := uint8 (Z.land c 255) |}.

(** Lines 176-179 of [Draw]: the clip rectangle of a command. *)
Definition cmdClipRect (m : Matrix.t) (cmd : Imgui.DrawCmd) : Rect.t :=
  let clipRect := Rect.Norm (imguiRectToPixelRect (Imgui.ClipRect cmd)) in
  let clipRect := Rect.mk (Matrix.Project m (Rect.Min clipRect)) (Rect.Max clipRect) in
  let clipRect := Rect.mk (Rect.Min clipRect) (Matrix.Project m (Rect.Max clipRect)) in
  Rect.Norm clipRect.

(** Lines 181 and 185-188 of [Draw]: the intensity of a command. *)
Definition cmdIntensity (ui : UI) (cmd : Imgui.DrawCmd) : float :=
  let id := uint32 (Imgui.TexID cmd) in
  if negb (id =? font ui) then 1%float else 0%float.

(** The variables of [Draw]'s loops: [totalTris], the triangle buffer,
    [indexBufferOffset] of the current command list, and the user
    callbacks called so far. *)
Record Loop : Type := mkLoop {
  totalTris : Z;
  tris : GLTriangles.t;
  indexBufferOffset : Z;
  called : list Z
}.

(** Lines 191-206: the body of the loop over the indices of a command. *)
Definition drawVertex (ui : UI) (L : Imgui.Layout) (mem : Imgui.Memory)
    (cmds : Imgui.DrawList) (iStart : Z) (clipRect texRect : Rect.t)
    (intensity : float) (i : Z) (st : GLTriangles.t * Z)
  : option (GLTriangles.t * Z) :=
  let '(tris, indexBufferOffset) := st in
  let idx := uintptr (uintptr (Imgui.IndexBuffer cmds) + indexBufferOffset) in
  let index := uint16 (Imgui.load_uint16 mem idx) in
  let ptr := uintptr (uintptr (Imgui.VertexBuffer cmds)
                      + uintptr (int (int index * Imgui.vertexSize L))) in
  let pos := Imgui.load_Vec2 mem (uintptr (uintptr ptr + uintptr (Imgui.posOffset L))) in
  let uv := Imgui.load_Vec2 mem (uintptr (uintptr ptr + uintptr (Imgui.uvOffset L))) in
  let col := uint32 (Imgui.load_uint32 mem (uintptr (uintptr ptr + uintptr (Imgui.colOffset L)))) in
  let position := PV pos in
  let color := imguiColorToPixelColor col in
  uuvv ← calcData ui texRect (PV uv);
  tris ← GLTriangles.SetPosition (int (iStart + i)) position tris;
  tris ← GLTriangles.SetPicture (int (iStart + i)) uuvv intensity tris;
  tris ← GLTriangles.SetColor (int (iStart + i)) (RGBA.ToRGBA color) tris;
  tris ← GLTriangles.SetClipRect (int (iStart + i)) clipRect tris;
  Some (tris, uintptr (indexBufferOffset + uintptr (Imgui.indexSize L))).

(** Lines 165-208: the body of the loop over the commands of a list. *)
Definition drawCmd (ui : UI) (L : Imgui.Layout) (mem : Imgui.Memory)
    (cmds : Imgui.DrawList) (cmd : Imgui.DrawCmd) (st : Loop) : option Loop :=
  if Imgui.HasUserCallback cmd then
    Some (mkLoop (totalTris st) (tris st) (indexBufferOffset st)
                 (called st ++ [Imgui.UserCallback cmd]))
  else
    let count := uint32 (Imgui.ElemCount cmd) in
    let iStart := totalTris st in
    let totalTris := int (totalTris st + int count) in
    tris ← (if GLTriangles.Len (tris st) <? totalTris
             then GLTriangles.SetLen totalTris (tris st)
             else Some (tris st));
    let clipRect := cmdClipRect (matrix ui) cmd in
    let id := uint32 (Imgui.TexID cmd) in
    texRect ← Pixel.Frame (atlas ui) id;
    let intensity := cmdIntensity ui cmd in
    r ← foldM (drawVertex ui L mem cmds iStart clipRect texRect intensity)
              (seqZ 0 (int count)) (tris, indexBufferOffset st);
    Some (mkLoop totalTris r.1 r.2 (called st)).

(** Lines 159-210: the body of the loop over the command lists. *)
Definition drawCmdList (ui : UI) (L : Imgui.Layout) (mem : Imgui.Memory)
    (cmds : Imgui.DrawList) (st : Loop) : option Loop :=
  foldM (drawCmd ui L mem cmds) (Imgui.Commands cmds)
        (mkLoop (totalTris st) (tris st) 0 (called st)).

(** What a call of [Draw] leaves behind: the UI, the triangles and the
    atlas texture of the one draw call, the user callbacks called. *)
Record Drawn : Type := mkDrawn {
  ui_after : UI;
  submitted : GLTriangles.t;
  picture : Rect.t;
  callbacks : list Z
}.

(** [func (ui *UI) Draw(win *opengl.Window)], on the draw data that
    [imgui.Render] produced. *)
Definition Draw (ui : UI) (L : Imgui.Layout) (mem : Imgui.Memory)
    (data : Imgui.DrawData) : option Drawn :=
  let ui := updateMatrix ui in
  st ← foldM (drawCmdList ui L mem) data (mkLoop 0 (shaderTris ui) 0 []);
  tris ← GLTriangles.SetLen (totalTris st) (tris st);
  tex ← head (Pixel.Textures (atlas ui));
  Some (mkDrawn (mkUI (win ui) (io ui) (matrix ui) tris (atlas ui) (font ui))
                tris tex (called st)).

(** [var keyMap], in the order of the literal. *)
Definition keyMap : list (Pixel.NamedButton * Z) :=
  [ (Pixel.KeyTab, Imgui.KeyTab);
    (Pixel.KeyLeft, Imgui.KeyLeftArrow);
    (Pixel.KeyRight, Imgui.KeyRightArrow);
    (Pixel.KeyUp, Imgui.KeyUpArrow);
    (Pixel.KeyDown, Imgui.KeyDownArrow);
    (Pixel.KeyPageUp, Imgui.KeyPageUp);
    (Pixel.KeyPageDown, Imgui.KeyPageDown);
    (Pixel.KeyHome, Imgui.KeyHome);
    (Pixel.KeyEnd, Imgui.KeyEnd);
    (Pixel.KeyInsert, Imgui.KeyInsert);
    (Pixel.KeyDelete, Imgui.KeyDelete);
    (Pixel.KeyBackspace, Imgui.KeyBackspace);
    (Pixel.KeySpace, Imgui.KeySpace);
    (Pixel.KeyEnter, Imgui.KeyEnter);
    (Pixel.KeyEscape, Imgui.KeyEscape);
    (Pixel.KeyA, Imgui.KeyA);
    (Pixel.KeyC, Imgui.KeyC);
    (Pixel.KeyV, Imgui.KeyV);
    (Pixel.KeyX, Imgui.KeyX);
    (Pixel.KeyY, Imgui.KeyY);
    (Pixel.KeyZ, Imgui.KeyZ) ].

(** [keyMap[button]]: the value and whether the map contains the key. *)
Definition keyMap_lookup (E : Pixel.ButtonEnum) (button : Z) : option Z :=
  snd <$> List.find (fun kv => Pixel.code E (fst kv) =? button) keyMap.

(** [keysData[mappedVal].SetDown(v)]: indexing outside the array panics. *)
Definition setDownAt (mappedVal : Z) (v : bool) (keysData : list Imgui.KeyData)
  : option (list Imgui.KeyData) :=
  if (0 <=? mappedVal) && (mappedVal <? Z.of_nat (length keysData))
  then Some (alter (Imgui.SetDown v) (Z.to_nat mappedVal) keysData)
  else None.

(** Lines 38-43 of [initIO]: the index a keyboard button is mapped to. *)
Definition mappedVal (E : Pixel.ButtonEnum) (button : Z) : Z :=
  match keyMap_lookup E button with
  | Some v => int32 (v - 512)
  | None => int32 (int (button + 8))
  end.

(** The callback [initIO] registers with [SetButtonCallback]. *)
Definition buttonCallback (E : Pixel.ButtonEnum) (button : Z)
    (action : Pixel.Action) (io : Imgui.IO) : option Imgui.IO :=
  if negb (Pixel.IsKeyboardButton E button) then Some io
  else
    let keysData := Imgui.KeysData io in
    let mappedVal := mappedVal E button in
    keysData ← match action with
               | Pixel.Press => setDownAt mappedVal true keysData
               | Pixel.Release => setDownAt mappedVal false keysData
               | Pixel.Repeat => Some keysData
               end;
    Some (Imgui.SetKeysData keysData io).

(** [func (ui *UI) MouseScroll() pixel.Vec]. *)
Definition MouseScroll (ui : UI) : Vec.t :=
  if Imgui.WantCaptureMouse (io ui) then Vec.ZV
  else Pixel.MouseScroll (win ui).

End PixelUI.

(** ** The vocabulary of the specification *)

Module Spec.

Import PixelUI.

(** Packing four channels in imgui's byte order: alpha in the highest
    byte, then blue, green, red.  The inverse of
    [imguiColorToPixelColor]. *)
Definition packABGR (c : Color.RGBA) : Z :=
  Z.lor (Z.shiftl (Color.A c) 24)
    (Z.lor (Z.shiftl (Color.B c) 16)
       (Z.lor (Z.shiftl (Color.G c) 8) (Color.R c))).

(** The commands of a frame, list after list, and those that draw. *)
Definition frameCommands (data : Imgui.DrawData) : list Imgui.DrawCmd :=
  concat (map Imgui.Commands data).

Definition draws (cmd : Imgui.DrawCmd) : bool := negb (Imgui.HasUserCallback cmd).

Definition drawn (cmds : list Imgui.DrawCmd) : list Imgui.DrawCmd :=
  List.filter draws cmds.

(** The sum of [ElemCount] over the commands without user callback. *)
Definition elemCount (cmds : list Imgui.DrawCmd) : Z :=
  foldr (fun cmd n => (if Imgui.HasUserCallback cmd then 0 else Imgui.ElemCount cmd) + n)
        0 cmds.

Definition frameElemCount (data : Imgui.DrawData) : Z :=
  elemCount (frameCommands data).

(** Draw data the translator's contract admits: every count is a
    [uint32], every texture id of a drawing command resolves in the
    atlas, the atlas has its shared texture, and the frame's vertex count
    fits an [int]. *)
Definition wf_cmd (ui : UI) (cmd : Imgui.DrawCmd) : Prop :=
  GoInt.is_uint32 (Imgui.ElemCount cmd) /\
  (Imgui.HasUserCallback cmd = false ->
   is_Some (Pixel.Frame (atlas ui) (GoInt.uint32 (Imgui.TexID cmd)))).

Definition wf_frame (ui : UI) (data : Imgui.DrawData) : Prop :=
  Pixel.Textures (atlas ui) <> [] /\
  Forall (wf_cmd ui) (frameCommands data) /\
  frameElemCount data < 2 ^ 63.

(** What [Draw] attaches to the output vertices of a command: the
    command's clip rectangle under the UI's matrix and its intensity. *)
Definition attached (ui : UI) (cmd : Imgui.DrawCmd) (v : GLTriangles.Vertex) : Prop :=
  GLTriangles.ClipRect v = cmdClipRect (matrix ui) cmd /\
  GLTriangles.Intensity v = cmdIntensity ui cmd.

(** The loop invariant of [Draw]: [totalTris] vertices have been
    written and they are the first ones of the buffer. *)
Definition emitted (out : GLTriangles.t) (st : Loop) : Prop :=
  totalTris st = Z.of_nat (length out) /\ exists rest, tris st = out ++ rest.

(** The run of output vertices of one drawing command: as many as its
    [ElemCount], each satisfying [P]. *)
Definition block (P : Imgui.DrawCmd -> GLTriangles.Vertex -> Prop)
    (cmd : Imgui.DrawCmd) (vs : list GLTriangles.Vertex) : Prop :=
  Z.of_nat (length vs) = Imgui.ElemCount cmd /\ Forall (P cmd) vs.

(** The output buffer is the runs of the drawing commands, in order. *)
Definition blocks (P : Imgui.DrawCmd -> GLTriangles.Vertex -> Prop)
    (cmds : list Imgui.DrawCmd) (out : GLTriangles.t) : Prop :=
  exists bs, out = concat bs /\ Forall2 (block P) (drawn cmds) bs.

(** The remap formula of the specification, with a division by the atlas
    size. *)
Definition atlasRemap (frame tex : Rect.t) (uv : Vec.t) : Vec.t :=
  Vec.V ((Vec.X uv * Rect.W frame + Vec.X (Rect.Min frame)) / Rect.W tex)%float
        ((Vec.Y uv * Rect.H frame + Vec.Y (Rect.Min frame)) / Rect.H tex)%float.

(** A rectangle in normal form ([<=] is Go's comparison of [float64]). *)
Definition normalized (r : Rect.t) : bool :=
  PrimFloat.leb (Vec.X (Rect.Min r)) (Vec.X (Rect.Max r)) &&
  PrimFloat.leb (Vec.Y (Rect.Min r)) (Vec.Y (Rect.Max r)).

(** A [float64] that is neither infinite nor not-a-number. *)
Definition finite (x : float) : bool :=
  match Prim2SF x with
  | S754_zero _ | S754_finite _ _ _ => true
  | _ => false
  end.

(** Some coordinate of the rectangle is not a number. *)
Definition has_nan (r : Rect.t) : bool := existsb is_nan (Rect.coords r).

(** The all-zero clip rectangle, on either side. *)
Definition zeroClip : Imgui.Vec4 := Imgui.mkVec4 0 0 0 0.
Definition zeroRect : Rect.t := Rect.R 0 0 0 0.

(** The key-state table [kd'] is [kd] with the down-state of slot [slot]
    set to [v] and nothing else changed: the other fields of the slot and
    all other slots are as they were. *)
Definition sets_down_only (slot : Z) (v : bool) (kd kd' : list Imgui.KeyData) : Prop :=
  length kd' = length kd /\
  (exists k k', kd !! Z.to_nat slot = Some k /\
                kd' !! Z.to_nat slot = Some k' /\
                Imgui.Down k' = v /\
                Imgui.DownDuration k' = Imgui.DownDuration k /\
                Imgui.DownDurationPrev k' = Imgui.DownDurationPrev k /\
                Imgui.AnalogValue k' = Imgui.AnalogValue k) /\
  (forall j, j <> Z.to_nat slot -> kd' !! j = kd !! j).

(** The slot of a named key in the key-state table. *)
Definition slotOf (key : Z) : Z := key - Imgui.NamedKey_BEGIN.

(** What a key event of action [action] for slot [slot] does to the
    GUI library's IO state: press sets the down-state, release clears it,
    repeat changes nothing; the capture flags stay. *)
Definition forwarded (action : Pixel.Action) (slot : Z) (io io' : Imgui.IO) : Prop :=
  Imgui.WantCaptureMouse io' = Imgui.WantCaptureMouse io /\
  Imgui.WantCaptureKeyboard io' = Imgui.WantCaptureKeyboard io /\
  match action with
  | Pixel.Press => sets_down_only slot true (Imgui.KeysData io) (Imgui.KeysData io')
  | Pixel.Release => sets_down_only slot false (Imgui.KeysData io) (Imgui.KeysData io')
  | Pixel.Repeat => Imgui.KeysData io' = Imgui.KeysData io
  end.

(** A numbering to run the callback on: GLFW's key codes, 32 to 348. *)
Definition glfwButtons : Pixel.ButtonEnum :=
  Pixel.mkButtonEnum
    (fun b => match b with
              | Pixel.KeySpace => 32
              | Pixel.KeyA => 65 | Pixel.KeyC => 67 | Pixel.KeyV => 86
              | Pixel.KeyX => 88 | Pixel.KeyY => 89 | Pixel.KeyZ => 90
              | Pixel.KeyEscape => 256 | Pixel.KeyEnter => 257
              | Pixel.KeyTab => 258 | Pixel.KeyBackspace => 259
              | Pixel.KeyInsert => 260 | Pixel.KeyDelete => 261
              | Pixel.KeyRight => 262 | Pixel.KeyLeft => 263
              | Pixel.KeyDown => 264 | Pixel.KeyUp => 265
              | Pixel.KeyPageUp => 266 | Pixel.KeyPageDown => 267
              | Pixel.KeyHome => 268 | Pixel.KeyEnd => 269
              end)
    (fun b => (32 <=? b) && (b <=? 348)).

(** A key-state table of [n] released keys. *)
Definition releasedKeys (n : nat) : list Imgui.KeyData :=
  replicate n (Imgui.mkKeyData false 0 0 0).

(** *** A frame to run the translator on

    A 1024x768 window; an atlas of one 1000x1000 texture holding the
    font at id 1 and an image at id 2; a list of three commands (glyphs
    without clipping, a user callback, a clipped image) and an empty
    list. *)

Definition sampleAtlas : Pixel.Atlas :=
  Pixel.mkAtlas
    (fun id => if id =? 1 then Some (Rect.R 9 0 59 50)
               else if id =? 2 then Some (Rect.R 100 100 228 228)
               else None)
    [Rect.R 0 0 1000 1000].

Definition sampleUI : UI :=
  mkUI (Pixel.mkWindow (Rect.R 0 0 1024 768) (Vec.V 0 3))
       (Imgui.mkIO (releasedKeys 155) false false)
       Matrix.IM [] sampleAtlas 1.

Definition sampleLayout : Imgui.Layout := Imgui.mkLayout 20 0 8 16 2.

Definition sampleMemory : Imgui.Memory :=
  Imgui.mkMemory (fun a => (a / 2) mod 4)
                 (fun a => Imgui.mkVec2 0.5 0.25)
                 (fun a => 4278190335).

Definition glyphs : Imgui.DrawCmd := Imgui.mkDrawCmd false 0 3 zeroClip 1.
Definition userCallback : Imgui.DrawCmd := Imgui.mkDrawCmd true 7 5 zeroClip 1.
Definition image : Imgui.DrawCmd :=
  Imgui.mkDrawCmd false 0 2 (Imgui.mkVec4 10 20 110 220) 2.

Definition sampleData : Imgui.DrawData :=
  [Imgui.mkDrawList [glyphs; userCallback; image] 4096 8192;
   Imgui.mkDrawList [] 0 0].

(** A command clipped by the unbounded rectangle. *)
Definition unbounded : Imgui.DrawCmd :=
  Imgui.mkDrawCmd false 0 3
    (Imgui.mkVec4 neg_infinity neg_infinity infinity infinity) 1.

End Spec.

(** ** A frame as a function of the draw data

    What [Draw]'s loops compute, without the buffer they write into: the
    vertex decoded for the [k]-th index of a command list, with the
    pointer arithmetic of lines 191-196 reduced modulo the pointer width. *)

Module Render.

Import PixelUI.

(** The address of the [k]-th element of the index buffer of [cmds]. *)
Definition indexAddr (L : Imgui.Layout) (cmds : Imgui.DrawList) (k : Z) : Z :=
  (Imgui.IndexBuffer cmds + k * Imgui.indexSize L) mod 2 ^ 64.

(** The address of the vertex an index value refers to. *)
Definition vertexAddr (L : Imgui.Layout) (cmds : Imgui.DrawList) (index : Z) : Z :=
  (Imgui.VertexBuffer cmds + index * Imgui.vertexSize L) mod 2 ^ 64.

(** The address of a field of the vertex at [ptr]. *)
Definition fieldAddr (ptr offset : Z) : Z := (ptr + offset) mod 2 ^ 64.

(** The atlas remap of [calcData], for the atlas texture [tex]. *)
Definition remap (tex frame : Rect.t) (uv : Vec.t) : Vec.t :=
  Vec.ScaledXY (Vec.Add (Vec.ScaledXY uv (Rect.Size frame)) (Rect.Min frame))
               (Vec.Map (Rect.Size tex) recip).

(** The output vertex for the [k]-th index of [cmds], drawn by [cmd]. *)
Definition vertexOf (ui : UI) (L : Imgui.Layout) (mem : Imgui.Memory)
    (cmds : Imgui.DrawList) (cmd : Imgui.DrawCmd) (k : Z) : GLTriangles.Vertex :=
  let index := Imgui.load_uint16 mem (indexAddr L cmds k) mod 2 ^ 16 in
  let ptr := vertexAddr L cmds index in
  let pos := Imgui.load_Vec2 mem (fieldAddr ptr (Imgui.posOffset L)) in
  let uv := Imgui.load_Vec2 mem (fieldAddr ptr (Imgui.uvOffset L)) in
  let col := Imgui.load_uint32 mem (fieldAddr ptr (Imgui.colOffset L)) mod 2 ^ 32 in
  let tex := default (Rect.R 0 0 0 0) (head (Pixel.Textures (atlas ui))) in
  let texRect := default (Rect.R 0 0 0 0)
                   (Pixel.Frame (atlas ui) (GoInt.uint32 (Imgui.TexID cmd))) in
  GLTriangles.mkVertex
    (PV pos)
    (RGBA.ToRGBA (imguiColorToPixelColor col))
    (remap tex texRect (PV uv))
    (cmdIntensity ui cmd)
    (cmdClipRect (matrix (updateMatrix ui)) cmd).

(** The vertices of the commands [l] of the list [cmds], the first of
    them reading the [k]-th index: a drawing command takes the next
    [ElemCount] indices, a user callback none. *)
Fixpoint listVertices (ui : UI) (L : Imgui.Layout) (mem : Imgui.Memory)
    (cmds : Imgui.DrawList) (l : list Imgui.DrawCmd) (k : Z) : GLTriangles.t :=
  match l with
  | [] => []
  | cmd :: l' =>
      if Imgui.HasUserCallback cmd then listVertices ui L mem cmds l' k
      else map (vertexOf ui L mem cmds cmd) (seqZ k (Imgui.ElemCount cmd))
           ++ listVertices ui L mem cmds l' (k + Imgui.ElemCount cmd)
  end.

(** The vertices of a frame: list after list, each from its index 0. *)
Definition frame (ui : UI) (L : Imgui.Layout) (mem : Imgui.Memory)
    (data : Imgui.DrawData) : GLTriangles.t :=
  concat (map (fun cmds => listVertices ui L mem cmds (Imgui.Commands cmds) 0) data).

(** The user callbacks of a frame, in the order of its commands. *)
Definition userCallbacks (data : Imgui.DrawData) : list Z :=
  map Imgui.UserCallback
      (List.filter Imgui.HasUserCallback (Spec.frameCommands data)).

(** The UI with another triangle buffer and matrix left by earlier frames. *)
Definition withBuffer (ui : UI) (m : Matrix.t) (tris : GLTriangles.t) : UI :=
  mkUI (win ui) (io ui) m tris (atlas ui) (font ui).

End Render.

(** ** The input queries and the cursors of [input.go] *)

Module Input.

Import PixelUI.

(** [pixel.MouseButton1] to [pixel.MouseButton8], the cases of
    [inputWant]. *)
Inductive MouseButton : Type :=
| MouseButton1 | MouseButton2 | MouseButton3 | MouseButton4
| MouseButton5 | MouseButton6 | MouseButton7 | MouseButton8.

(** The button state of the [opengl.Window] and the engine's codes of the
    mouse buttons. *)
Record Buttons : Type := mkButtons {
  mouseCode : MouseButton -> Z;
  winPressed : Z -> bool;
  winJustPressed : Z -> bool;
  winJustReleased : Z -> bool;
  winRepeated : Z -> bool
}.

(** Whether [button] is one of the eight cases of the [switch]. *)
Definition isMouseButton (B : Buttons) (button : Z) : bool :=
  existsb (fun m => mouseCode B m =? button)
          [MouseButton1; MouseButton2; MouseButton3; MouseButton4;
           MouseButton5; MouseButton6; MouseButton7; MouseButton8].

(** [func (ui *UI) inputWant(button pixel.Button) bool]. *)
Definition inputWant (ui : UI) (B : Buttons) (button : Z) : bool :=
  if isMouseButton B button then Imgui.WantCaptureMouse (io ui)
  else Imgui.WantCaptureKeyboard (io ui).

(** [JustPressed], [JustReleased], [Pressed] and [Repeated] of [*UI]. *)
Definition JustPressed (ui : UI) (B : Buttons) (button : Z) : bool :=
  negb (inputWant ui B button) && winJustPressed B button.

Definition JustReleased (ui : UI) (B : Buttons) (button : Z) : bool :=
  negb (inputWant ui B button) && winJustReleased B button.

Definition Pressed (ui : UI) (B : Buttons) (button : Z) : bool :=
  negb (inputWant ui B button) && winPressed B button.

Definition Repeated (ui : UI) (B : Buttons) (button : Z) : bool :=
  negb (inputWant ui B button) && winRepeated B button.

(** Buttons to run the queries on: the mouse buttons numbered 0 to 7 as
    GLFW does, the left mouse button and the key A (65) held down. *)
Definition sampleButtons : Buttons :=
  mkButtons
    (fun m => match m with
              | MouseButton1 => 0 | MouseButton2 => 1 | MouseButton3 => 2
              | MouseButton4 => 3 | MouseButton5 => 4 | MouseButton6 => 5
              | MouseButton7 => 6 | MouseButton8 => 7
              end)
    (fun b => (b =? 0) || (b =? 65))
    (fun b => b =? 65)
    (fun _ => false)
    (fun _ => false).

(** [opengl]'s standard cursor shapes. *)
Inductive StandardCursor : Type :=
| ArrowCursor | IBeamCursor | CrosshairCursor
| HandCursor | HResizeCursor | VResizeCursor.

(** The values of [imgui.MouseCursor] that [initIO] names. *)
Definition MouseCursorArrow : Z := 0.
Definition MouseCursorTextInput : Z := 1.
Definition MouseCursorResizeNS : Z := 3.
Definition MouseCursorResizeEW : Z := 4.
Definition MouseCursorHand : Z := 7.

(** [ui.cursors]: the cursor created for a shape of the GUI library. *)
Abbreviation Cursors := (gmap Z StandardCursor).

(** Lines 57-61 of [initIO]: the five assignments to [ui.cursors]. *)
Definition initIO_cursors (cursors : Cursors) : Cursors :=
  <[MouseCursorResizeNS := VResizeCursor]>
    (<[MouseCursorResizeEW := HResizeCursor]>
       (<[MouseCursorHand := HandCursor]>
          (<[MouseCursorTextInput := IBeamCursor]>
             (<[MouseCursorArrow := ArrowCursor]> cursors)))).

(** Lines 79-83 of [prepareIO]: the cursor given to [SetCursor] for the
    shape the GUI library asks for; [None] is the nil pointer a missing
    key yields. *)
Definition prepareIO_cursor (cursors : Cursors) (requested : Z)
  : option StandardCursor :=
  match cursors !! requested with
  | Some c => Some c
  | None => cursors !! MouseCursorArrow
  end.

End Input.

(** * Properties *)

Import PixelUI.

(** ** Colours *)

Lemma land_255 (x : Z) : Z.land x 255 = x mod 2 ^ 8.
Proof. change 255 with (Z.ones 8). apply Z.land_ones. lia. Qed.

Lemma channel_byte (c k : Z) :
  0 <= k -> GoInt.uint8 (Z.land (Z.shiftr c k) 255) = (c / 2 ^ k) mod 2 ^ 8.
Proof.
  intros Hk. unfold GoInt.uint8. rewrite land_255, Z.shiftr_div_pow2 by lia.
  apply Z.mod_mod. lia.
Qed.

Lemma channel_testbit (c k n : Z) :
  0 <= k -> 0 <= n ->
  Z.testbit (Z.shiftl ((c / 2 ^ k) mod 2 ^ 8) k) n
  = (k <=? n) && (n <? k + 8) && Z.testbit c n.
Proof.
  intros Hk Hn. rewrite Z.shiftl_spec by lia.
  destruct (Z.leb_spec k n) as [Hle|Hlt]; simpl.
  - destruct (Z.ltb_spec n (k + 8)) as [Hin|Hout]; simpl.
    + rewrite Z.mod_pow2_bits_low by lia.
      rewrite <- Z.shiftr_div_pow2, Z.shiftr_spec by lia.
      f_equal. lia.
    + apply Z.mod_pow2_bits_high. lia.
  - apply Z.testbit_neg_r. lia.
Qed.

(** C4. [imguiColorToPixelColor] reads a 32-bit colour as alpha in the
    highest byte, then blue, green and red, and packing the four channels
    back in that order gives the colour again. *)
Theorem color_roundtrip (c : Z) :
  GoInt.is_uint32 c ->
  let p := imguiColorToPixelColor c in
  Color.A p = c / 2 ^ 24 /\
  Color.B p = (c / 2 ^ 16) mod 2 ^ 8 /\
  Color.G p = (c / 2 ^ 8) mod 2 ^ 8 /\
  Color.R p = c mod 2 ^ 8 /\
  Spec.packABGR p = c.
Proof.
  intros Hc p. unfold GoInt.is_uint32 in Hc.
  assert (HA : Color.A p = (c / 2 ^ 24) mod 2 ^ 8) by (apply channel_byte; lia).
  assert (HB : Color.B p = (c / 2 ^ 16) mod 2 ^ 8) by (apply channel_byte; lia).
  assert (HG : Color.G p = (c / 2 ^ 8) mod 2 ^ 8) by (apply channel_byte; lia).
  assert (HR : Color.R p = (c / 2 ^ 0) mod 2 ^ 8) by (apply (channel_byte c 0); lia).
  assert (Htop : (c / 2 ^ 24) mod 2 ^ 8 = c / 2 ^ 24).
  { apply Z.mod_small. split; [apply Z.div_pos; lia|].
    apply Z.div_lt_upper_bound; lia. }
  repeat split.
  - congruence.
  - exact HB.
  - exact HG.
  - rewrite HR. change (2 ^ 0) with 1. now rewrite Z.div_1_r.
  - unfold Spec.packABGR. rewrite HA, HB, HG.
    replace (Color.R p) with (Z.shiftl ((c / 2 ^ 0) mod 2 ^ 8) 0)
      by (rewrite Z.shiftl_0_r; congruence).
    apply Z.bits_inj'. intros n Hn.
    rewrite !Z.lor_spec, !channel_testbit by lia.
    destruct (Z.ltb_spec n 32) as [Hlo|Hhi].
    + destruct (Z.testbit c n); [|now rewrite !andb_false_r].
      rewrite !andb_true_r.
      destruct (Z.leb_spec 24 n), (Z.leb_spec 16 n), (Z.leb_spec 8 n),
        (Z.leb_spec 0 n), (Z.ltb_spec n (24 + 8)), (Z.ltb_spec n (16 + 8)),
        (Z.ltb_spec n (8 + 8)), (Z.ltb_spec n (0 + 8)); simpl; try reflexivity; lia.
    + replace (Z.testbit c n) with false; [now rewrite !andb_false_r|].
      symmetry. rewrite <- (Z.mod_small c (2 ^ 32)) by lia.
      apply Z.mod_pow2_bits_high. lia.
Qed.

Lemma color_roundtrip_witness :
  GoInt.is_uint32 4278190335 /\
  Spec.packABGR (imguiColorToPixelColor 4278190335) = 4278190335.
Proof.
  split; [unfold GoInt.is_uint32; lia|].
  apply (color_roundtrip 4278190335). unfold GoInt.is_uint32; lia.
Defined.

(** ** The input forwarder *)

(** C7. [MouseScroll] is the zero vector when the GUI library wants to
    capture the mouse, and the window's raw scroll value otherwise. *)
Theorem MouseScroll_capture (ui : UI) :
  (Imgui.WantCaptureMouse (io ui) = true -> MouseScroll ui = Vec.ZV) /\
  (Imgui.WantCaptureMouse (io ui) = false ->
   MouseScroll ui = Pixel.MouseScroll (win ui)).
Proof. unfold MouseScroll. split; intros ->; reflexivity. Qed.

Lemma MouseScroll_capture_witness :
  MouseScroll Spec.sampleUI = Pixel.MouseScroll (win Spec.sampleUI) /\
  MouseScroll (mkUI (win Spec.sampleUI) (Imgui.mkIO [] true false) Matrix.IM []
                    Spec.sampleAtlas 1) = Vec.ZV.
Proof.
  split.
  - apply (proj2 (MouseScroll_capture Spec.sampleUI)). reflexivity.
  - apply (proj1 (MouseScroll_capture _)). reflexivity.
Defined.

(** C10. A button event for a button that is not a keyboard button leaves
    the IO state, and with it the key-state table, as it is; the table is
    not indexed, so the callback returns whatever the table's size. *)
Theorem buttonCallback_not_keyboard (E : Pixel.ButtonEnum) (button : Z)
    (action : Pixel.Action) (io : Imgui.IO) :
  Pixel.IsKeyboardButton E button = false ->
  buttonCallback E button action io = Some io.
Proof. intros H. unfold buttonCallback. now rewrite H. Qed.

Lemma buttonCallback_not_keyboard_witness :
  buttonCallback Spec.glfwButtons 0 Pixel.Press (Imgui.mkIO [] false false)
  = Some (Imgui.mkIO [] false false).
Proof. apply buttonCallback_not_keyboard. reflexivity. Defined.

Lemma find_assoc {K V : Type} (f : K -> Z) (l : list (K * V)) (k : K) (v : V) :
  (forall a b, f a = f b -> a = b) ->
  NoDup (map fst l) -> In (k, v) l ->
  List.find (fun kv => f (fst kv) =? f k) l = Some (k, v).
Proof.
  intros Hinj. induction l as [|[k' v'] l IH]; intros Hnd Hin; [easy|].
  simpl in *. apply NoDup_cons in Hnd as [Hnotin Hnd].
  destruct Hin as [Heq|Hin].
  - inversion Heq; subst. now rewrite Z.eqb_refl.
  - destruct (Z.eqb_spec (f k') (f k)) as [Hk|Hk]; [|now apply IH].
    apply Hinj in Hk. subst k'. exfalso. apply Hnotin.
    apply list_elem_of_In. change k with (fst (k, v)). now apply in_map.
Qed.

Lemma find_none_assoc {K V : Type} (f : K -> Z) (l : list (K * V)) (b : Z) :
  (forall k, f k <> b) -> List.find (fun kv => f (fst kv) =? b) l = None.
Proof.
  intros Hne. induction l as [|[k v] l IH]; [easy|]. simpl.
  destruct (Z.eqb_spec (f k) b) as [Hk|_]; [now apply Hne in Hk | exact IH].
Qed.

Lemma keyMap_NoDup : NoDup (map fst keyMap).
Proof. apply (bool_decide_unpack _). vm_compute. exact I. Qed.

Lemma keyMap_slots (nb : Pixel.NamedButton) (key : Z) :
  In (nb, key) keyMap -> 0 <= Spec.slotOf key < 60.
Proof.
  unfold keyMap; simpl. intros H.
  repeat (destruct H as [H|H]; [inversion H; subst; vm_compute; split; congruence|]).
  destruct H.
Qed.

Lemma mappedVal_named (E : Pixel.ButtonEnum) (nb : Pixel.NamedButton) (key : Z) :
  Pixel.wf_enum E -> In (nb, key) keyMap ->
  mappedVal E (Pixel.code E nb) = Spec.slotOf key.
Proof.
  intros Hinj Hin. unfold mappedVal, keyMap_lookup.
  rewrite (find_assoc (Pixel.code E) keyMap nb key Hinj keyMap_NoDup Hin). simpl.
  pose proof (keyMap_slots nb key Hin) as Hs. unfold Spec.slotOf, Imgui.NamedKey_BEGIN in *.
  unfold GoInt.int32. rewrite Z.mod_small by lia. lia.
Qed.

Lemma mappedVal_unnamed (E : Pixel.ButtonEnum) (button : Z) :
  (forall nb, Pixel.code E nb <> button) ->
  0 <= button + 8 < 2 ^ 31 ->
  mappedVal E button = button + 8.
Proof.
  intros Hne Hb. unfold mappedVal, keyMap_lookup.
  rewrite (find_none_assoc (Pixel.code E) keyMap button Hne). simpl.
  unfold GoInt.int32, GoInt.int.
  rewrite (Z.mod_small (button + 8 + 2 ^ 63)) by lia.
  rewrite Z.mod_small by lia. lia.
Qed.

Lemma setDownAt_spec (slot : Z) (v : bool) (kd : list Imgui.KeyData) :
  0 <= slot < Z.of_nat (length kd) ->
  exists kd', setDownAt slot v kd = Some kd' /\ Spec.sets_down_only slot v kd kd'.
Proof.
  intros Hs. unfold setDownAt.
  destruct (Z.leb_spec 0 slot); [|lia]. destruct (Z.ltb_spec slot (Z.of_nat (length kd))); [|lia].
  simpl. eexists; split; [reflexivity|]. unfold Spec.sets_down_only.
  split; [apply length_alter|]. split.
  - destruct (lookup_lt_is_Some_2 kd (Z.to_nat slot)) as [k Hk]; [lia|].
    exists k, (Imgui.SetDown v k). split; [exact Hk|].
    split; [rewrite list_lookup_alter_eq, Hk; reflexivity|].
    unfold Imgui.SetDown. simpl. auto.
  - intros j Hj. apply list_lookup_alter_ne. congruence.
Qed.

Lemma buttonCallback_slot (E : Pixel.ButtonEnum) (button slot : Z)
    (action : Pixel.Action) (io : Imgui.IO) :
  Pixel.IsKeyboardButton E button = true ->
  mappedVal E button = slot ->
  0 <= slot < Z.of_nat (length (Imgui.KeysData io)) ->
  exists io', buttonCallback E button action io = Some io' /\
              Spec.forwarded action slot io io'.
Proof.
  intros Hkb Hm Hs. unfold buttonCallback. rewrite Hkb, Hm. simpl.
  unfold Spec.forwarded. destruct action.
  - destruct (setDownAt_spec slot false _ Hs) as (kd' & -> & Hkd).
    simpl. eexists; split; [reflexivity|]. simpl. auto.
  - destruct (setDownAt_spec slot true _ Hs) as (kd' & -> & Hkd).
    simpl. eexists; split; [reflexivity|]. simpl. auto.
  - simpl. eexists; split; [reflexivity|]. simpl. auto.
Qed.

Lemma buttonCallback_outside (E : Pixel.ButtonEnum) (button slot : Z)
    (action : Pixel.Action) (io : Imgui.IO) :
  Pixel.IsKeyboardButton E button = true ->
  mappedVal E button = slot ->
  Z.of_nat (length (Imgui.KeysData io)) <= slot ->
  action <> Pixel.Repeat ->
  buttonCallback E button action io = None.
Proof.
  intros Hkb Hm Hs Ha. unfold buttonCallback, setDownAt. rewrite Hkb, Hm. cbn [negb].
  destruct (Z.ltb_spec slot (Z.of_nat (length (Imgui.KeysData io)))); [lia|].
  rewrite andb_false_r. destruct action; try reflexivity. now contradiction Ha.
Qed.

(** C6. A key event for a keyboard button of [keyMap] changes the
    down-state of the slot of the named key it is mapped to, and nothing
    else: the slot's [Down] is true after a press and false after a
    release (a repeat changes nothing).  A keyboard button that is not in
    [keyMap] does the same to the slot at the button's code plus 8.  In
    both cases a press or a release whose slot lies beyond the key-state
    table panics: the event is never dropped silently. *)
Theorem buttonCallback_key (E : Pixel.ButtonEnum) (button : Z)
    (action : Pixel.Action) (io : Imgui.IO) :
  Pixel.wf_enum E ->
  Pixel.IsKeyboardButton E button = true ->
  (forall nb key,
      In (nb, key) keyMap -> button = Pixel.code E nb ->
      (Spec.slotOf key < Z.of_nat (length (Imgui.KeysData io)) ->
       exists io', buttonCallback E button action io = Some io' /\
                   Spec.forwarded action (Spec.slotOf key) io io') /\
      (Z.of_nat (length (Imgui.KeysData io)) <= Spec.slotOf key ->
       action <> Pixel.Repeat ->
       buttonCallback E button action io = None)) /\
  ((forall nb, Pixel.code E nb <> button) ->
   0 <= button + 8 < 2 ^ 31 ->
   (button + 8 < Z.of_nat (length (Imgui.KeysData io)) ->
    exists io', buttonCallback E button action io = Some io' /\
                Spec.forwarded action (button + 8) io io') /\
   (Z.of_nat (length (Imgui.KeysData io)) <= button + 8 ->
    action <> Pixel.Repeat ->
    buttonCallback E button action io = None)).
Proof.
  intros Hwf Hkb. split.
  - intros nb key Hin ->. pose proof (keyMap_slots nb key Hin) as Hs.
    pose proof (mappedVal_named E nb key Hwf Hin) as Hm. split.
    + intros Hlen. apply buttonCallback_slot; [exact Hkb | exact Hm | lia].
    + intros Hlen Ha. now apply (buttonCallback_outside E _ (Spec.slotOf key)).
  - intros Hne Hb. pose proof (mappedVal_unnamed E button Hne Hb) as Hm. split.
    + intros Hlen. apply buttonCallback_slot; [exact Hkb | exact Hm | lia].
    + intros Hlen Ha. now apply (buttonCallback_outside E _ (button + 8)).
Qed.

Lemma glfwButtons_wf : Pixel.wf_enum Spec.glfwButtons.
Proof. intros a b; destruct a, b; simpl; intros H; try reflexivity; discriminate H. Qed.

Lemma buttonCallback_key_witness :
  let io := Imgui.mkIO (Spec.releasedKeys 155) false false in
  let small := Imgui.mkIO (Spec.releasedKeys 10) false false in
  (exists io', buttonCallback Spec.glfwButtons 258 Pixel.Press io = Some io' /\
               Spec.forwarded Pixel.Press 0 io io') /\
  (exists io', buttonCallback Spec.glfwButtons 66 Pixel.Press io = Some io' /\
               Spec.forwarded Pixel.Press 74 io io') /\
  buttonCallback Spec.glfwButtons 86 Pixel.Release small = None /\
  buttonCallback Spec.glfwButtons 66 Pixel.Press small = None.
Proof.
  intros io small.
  assert (H66 : forall nb, Pixel.code Spec.glfwButtons nb <> 66)
    by (intros nb; destruct nb; simpl; discriminate).
  split; [|split; [|split]].
  - apply (proj1 (proj1 (buttonCallback_key Spec.glfwButtons 258 Pixel.Press io
                           glfwButtons_wf eq_refl)
                        Pixel.KeyTab Imgui.KeyTab ltac:(simpl; tauto) eq_refl)).
    vm_compute. reflexivity.
  - apply (proj1 (proj2 (buttonCallback_key Spec.glfwButtons 66 Pixel.Press io
                           glfwButtons_wf eq_refl)
                        H66 ltac:(vm_compute; split; [discriminate | reflexivity]))).
    vm_compute. reflexivity.
  - apply (proj2 (proj1 (buttonCallback_key Spec.glfwButtons 86 Pixel.Release small
                           glfwButtons_wf eq_refl)
                        Pixel.KeyV Imgui.KeyV ltac:(simpl; tauto) eq_refl)).
    + vm_compute. discriminate.
    + discriminate.
  - apply (proj2 (proj2 (buttonCallback_key Spec.glfwButtons 66 Pixel.Press small
                           glfwButtons_wf eq_refl)
                        H66 ltac:(vm_compute; split; [discriminate | reflexivity]))).
    + vm_compute. discriminate.
    + discriminate.
Defined.

(** ** The loops of [Draw] *)

Lemma int_small (z : Z) : - 2 ^ 63 <= z < 2 ^ 63 -> GoInt.int z = z.
Proof. intros H. unfold GoInt.int. rewrite Z.mod_small by lia. lia. Qed.

Lemma uint32_small (z : Z) : GoInt.is_uint32 z -> GoInt.uint32 z = z.
Proof. intros H. apply Z.mod_small. exact H. Qed.

Lemma alter_middle {A : Type} (f : A -> A) (pre : list A) (b : A) (rest : list A) :
  alter f (length pre) (pre ++ b :: rest) = pre ++ f b :: rest.
Proof. induction pre as [|a pre IH]; simpl; [reflexivity | f_equal; exact IH]. Qed.

Lemma update_middle (f : GLTriangles.Vertex -> GLTriangles.Vertex)
    (pre : GLTriangles.t) (b : GLTriangles.Vertex) (rest : GLTriangles.t) (i : Z) :
  i = Z.of_nat (length pre) ->
  GLTriangles.update i f (pre ++ b :: rest) = Some (pre ++ f b :: rest).
Proof.
  intros ->. unfold GLTriangles.update, GLTriangles.Len.
  rewrite length_app. simpl length.
  destruct (Z.leb_spec 0 (Z.of_nat (length pre))); [|lia].
  destruct (Z.ltb_spec (Z.of_nat (length pre)) (Z.of_nat (length pre + S (length rest))));
    [|lia].
  simpl. rewrite Nat2Z.id. f_equal. apply alter_middle.
Qed.

Section Translator.

Variables (ui : UI) (L : Imgui.Layout) (mem : Imgui.Memory).
Hypothesis Htex : Pixel.Textures (atlas ui) <> [].


Lemma calcData_returns (frame : Rect.t) (uv : Vec.t) :
  is_Some (calcData ui frame uv).
Proof.
  unfold calcData. destruct (Pixel.Textures (atlas ui)); [congruence|].
  simpl. eauto.
Qed.

Lemma drawVertex_writes (cmds : Imgui.DrawList) (iStart : Z)
    (clipRect texRect : Rect.t) (intensity : float) (i : Z)
    (pre : GLTriangles.t) (b : GLTriangles.Vertex) (rest : GLTriangles.t) (off : Z) :
  iStart + i = Z.of_nat (length pre) -> iStart + i < 2 ^ 63 ->
  exists v off',
    drawVertex ui L mem cmds iStart clipRect texRect intensity i
               (pre ++ b :: rest, off) = Some (pre ++ v :: rest, off') /\
    GLTriangles.ClipRect v = clipRect /\ GLTriangles.Intensity v = intensity.
Proof.
  intros Hi Hlt. unfold drawVertex.
  match goal with |- context [calcData ui texRect ?uv] =>
    destruct (calcData_returns texRect uv) as [uuvv ->] end.
  simpl. rewrite int_small by lia.
  unfold GLTriangles.SetPosition. rewrite (update_middle _ pre b rest _ Hi). simpl.
  unfold GLTriangles.SetPicture. rewrite (update_middle _ pre _ rest _ Hi). simpl.
  unfold GLTriangles.SetColor. rewrite (update_middle _ pre _ rest _ Hi). simpl.
  unfold GLTriangles.SetClipRect. rewrite (update_middle _ pre _ rest _ Hi). simpl.
  eexists _, _. split; [reflexivity|]. simpl. auto.
Qed.

Lemma foldM_drawVertex (cmds : Imgui.DrawList) (iStart : Z)
    (clipRect texRect : Rect.t) (intensity : float) (body : GLTriangles.t) :
  forall (m : Z) (pre post : GLTriangles.t) (off : Z),
    iStart + m = Z.of_nat (length pre) ->
    iStart + m + Z.of_nat (length body) <= 2 ^ 63 ->
    exists vs off',
      foldM (drawVertex ui L mem cmds iStart clipRect texRect intensity)
            (seqZ m (Z.of_nat (length body))) (pre ++ body ++ post, off)
      = Some (pre ++ vs ++ post, off') /\
      length vs = length body /\
      Forall (fun v => GLTriangles.ClipRect v = clipRect /\
                       GLTriangles.Intensity v = intensity) vs.
Proof.
  induction body as [|b body IH]; intros m pre post off Hm Hfit.
  - exists [], off. simpl. auto.
  - simpl length in *. rewrite seqZ_cons by lia.
    replace (Z.pred (Z.of_nat (S (length body)))) with (Z.of_nat (length body)) by lia.
    cbn [foldM]. simpl app.
    destruct (drawVertex_writes cmds iStart clipRect texRect intensity m
                pre b (body ++ post) off Hm ltac:(lia)) as (v & off1 & -> & Hc & Hi).
    simpl.
    destruct (IH (Z.succ m) (pre ++ [v]) post off1) as (vs & off' & Hf & Hlen & Hall).
    { rewrite length_app. simpl. lia. }
    { lia. }
    exists (v :: vs), off'. split; [|split].
    + rewrite <- (assoc_L (++) pre [v]) in Hf. simpl in Hf. rewrite Hf.
      rewrite <- (assoc_L (++) pre [v]). reflexivity.
    + simpl. congruence.
    + constructor; auto.
Qed.


Lemma drawCmd_emits (cmds : Imgui.DrawList) (cmd : Imgui.DrawCmd)
    (st : Loop) (out : GLTriangles.t) :
  Spec.wf_cmd ui cmd -> Spec.emitted out st ->
  totalTris st + Spec.elemCount [cmd] < 2 ^ 63 ->
  exists st' bs,
    drawCmd ui L mem cmds cmd st = Some st' /\
    Spec.emitted (out ++ concat bs) st' /\
    Forall2 (Spec.block (Spec.attached ui)) (Spec.drawn [cmd]) bs /\
    totalTris st' = totalTris st + Spec.elemCount [cmd].
Proof.
  intros [Hcount Hres] [Htot [rest Htris]] Hfit.
  unfold drawCmd, Spec.drawn, Spec.draws, Spec.elemCount in *. simpl in *.
  destruct (Imgui.HasUserCallback cmd) eqn:Hcb; simpl.
  - exists (mkLoop (totalTris st) (tris st) (indexBufferOffset st)
                   (called st ++ [Imgui.UserCallback cmd])), [].
    simpl. rewrite app_nil_r. split; [reflexivity|].
    split; [split; simpl; eauto|]. split; [constructor|lia].
  - destruct (Hres eq_refl) as [texRect Hframe].
    rewrite (uint32_small _ Hcount) in *. unfold GoInt.is_uint32 in Hcount.
    set (n := Imgui.ElemCount cmd) in *.
    rewrite (int_small n) by lia. rewrite int_small by lia.
    assert (exists body post,
               (if GLTriangles.Len (tris st) <? totalTris st + n
                then GLTriangles.SetLen (totalTris st + n) (tris st)
                else Some (tris st)) = Some (out ++ body ++ post) /\
               Z.of_nat (length body) = n) as (body & post & -> & Hbody).
    { unfold GLTriangles.SetLen, GLTriangles.Len. rewrite Htris, length_app.
      destruct (Z.ltb_spec (Z.of_nat (length out + length rest)) (totalTris st + n))
        as [Hgrow|Hfits].
      - destruct (Z.ltb_spec (totalTris st + n) 0); [lia|].
        set (k := Z.to_nat _).
        exists (rest ++ replicate k GLTriangles.fresh), [].
        rewrite app_nil_r, (assoc_L (++)). split; [reflexivity|].
        rewrite length_app, length_replicate. subst k. lia.
      - exists (take (Z.to_nat n) rest), (drop (Z.to_nat n) rest).
        rewrite take_drop. split; [reflexivity|].
        rewrite length_take. lia. }
    simpl. rewrite Hframe. simpl.
    rewrite <- Hbody.
    destruct (foldM_drawVertex cmds (totalTris st) (cmdClipRect (matrix ui) cmd)
                texRect (cmdIntensity ui cmd) body 0 out post (indexBufferOffset st))
      as (vs & off' & -> & Hlen & Hall); [lia | lia |].
    simpl. eexists _, [vs]. split; [reflexivity|]. simpl. rewrite app_nil_r.
    split; [|split].
    + split; simpl; [rewrite length_app; lia|].
      exists post. now rewrite (assoc_L (++)).
    + constructor; [|constructor]. split; [lia|]. exact Hall.
    + lia.
Qed.

Lemma drawn_app (a b : list Imgui.DrawCmd) :
  Spec.drawn (a ++ b) = Spec.drawn a ++ Spec.drawn b.
Proof. apply List.filter_app. Qed.

Lemma elemCount_app (a b : list Imgui.DrawCmd) :
  Spec.elemCount (a ++ b) = Spec.elemCount a + Spec.elemCount b.
Proof.
  unfold Spec.elemCount. induction a as [|c a IH]; simpl; [reflexivity|].
  rewrite IH. lia.
Qed.

Lemma elemCount_nonneg (cmds : list Imgui.DrawCmd) :
  Forall (Spec.wf_cmd ui) cmds -> 0 <= Spec.elemCount cmds.
Proof.
  induction 1 as [|c cmds [Hc _] _ IH]; simpl; [lia|].
  unfold GoInt.is_uint32 in Hc. destruct (Imgui.HasUserCallback c); lia.
Qed.

Lemma foldM_drawCmd_emits (cmds : Imgui.DrawList) (l : list Imgui.DrawCmd) :
  forall (st : Loop) (out : GLTriangles.t),
    Forall (Spec.wf_cmd ui) l -> Spec.emitted out st ->
    totalTris st + Spec.elemCount l < 2 ^ 63 ->
    exists st' bs,
      foldM (drawCmd ui L mem cmds) l st = Some st' /\
      Spec.emitted (out ++ concat bs) st' /\
      Forall2 (Spec.block (Spec.attached ui)) (Spec.drawn l) bs /\
      totalTris st' = totalTris st + Spec.elemCount l.
Proof.
  induction l as [|cmd l IH]; intros st out Hwf Hinv Hfit.
  - exists st, []. simpl. rewrite app_nil_r.
    split; [reflexivity|]. split; [exact Hinv|]. split; [constructor|lia].
  - apply Forall_cons in Hwf as [Hcmd Hwf].
    change (cmd :: l) with ([cmd] ++ l) in *. rewrite elemCount_app in Hfit.
    pose proof (elemCount_nonneg l Hwf) as Hpos.
    destruct (drawCmd_emits cmds cmd st out Hcmd Hinv ltac:(lia))
      as (st1 & bs1 & Hstep & Hinv1 & Hb1 & Htot1).
    destruct (IH st1 (out ++ concat bs1) Hwf Hinv1 ltac:(lia))
      as (st' & bs & Hfold & Hinv' & Hb & Htot).
    exists st', (bs1 ++ bs). cbn [foldM app]. rewrite Hstep. simpl mbind. rewrite Hfold.
    split; [reflexivity|]. rewrite concat_app, (assoc_L (++)). split; [exact Hinv'|].
    split.
    + change (cmd :: l) with ([cmd] ++ l). rewrite drawn_app. now apply Forall2_app.
    + change (cmd :: l) with ([cmd] ++ l). rewrite elemCount_app. lia.
Qed.

Lemma foldM_drawCmdList_emits (data : Imgui.DrawData) :
  forall (st : Loop) (out : GLTriangles.t),
    Forall (Spec.wf_cmd ui) (Spec.frameCommands data) -> Spec.emitted out st ->
    totalTris st + Spec.frameElemCount data < 2 ^ 63 ->
    exists st' bs,
      foldM (drawCmdList ui L mem) data st = Some st' /\
      Spec.emitted (out ++ concat bs) st' /\
      Forall2 (Spec.block (Spec.attached ui)) (Spec.drawn (Spec.frameCommands data)) bs /\
      totalTris st' = totalTris st + Spec.frameElemCount data.
Proof.
  unfold Spec.frameElemCount, Spec.frameCommands.
  induction data as [|cmds data IH]; intros st out Hwf Hinv Hfit.
  - exists st, []. simpl. rewrite app_nil_r.
    split; [reflexivity|]. split; [exact Hinv|]. split; [constructor|lia].
  - simpl in Hwf, Hfit. apply Forall_app in Hwf as [Hhd Hwf].
    rewrite elemCount_app in Hfit.
    pose proof (elemCount_nonneg _ Hwf) as Hpos.
    destruct (foldM_drawCmd_emits cmds (Imgui.Commands cmds)
                (mkLoop (totalTris st) (tris st) 0 (called st)) out Hhd)
      as (st1 & bs1 & Hstep & Hinv1 & Hb1 & Htot1).
    { destruct Hinv as [? ?]. split; simpl; auto. }
    { simpl. lia. }
    simpl in Htot1.
    destruct (IH st1 (out ++ concat bs1) Hwf Hinv1 ltac:(lia))
      as (st' & bs & Hfold & Hinv' & Hb & Htot).
    change (drawCmdList ui L mem cmds st = Some st1) in Hstep.
    exists st', (bs1 ++ bs). cbn [foldM]. rewrite Hstep.
    simpl mbind. rewrite Hfold.
    split; [reflexivity|]. rewrite concat_app, (assoc_L (++)). split; [exact Hinv'|].
    split.
    + simpl. rewrite drawn_app. now apply Forall2_app.
    + simpl. rewrite elemCount_app. lia.
Qed.

End Translator.

Lemma blocks_length (P : Imgui.DrawCmd -> GLTriangles.Vertex -> Prop)
    (cmds : list Imgui.DrawCmd) (bs : list (list GLTriangles.Vertex)) :
  Forall2 (Spec.block P) (Spec.drawn cmds) bs ->
  Z.of_nat (length (concat bs)) = Spec.elemCount cmds.
Proof.
  revert bs. induction cmds as [|c cmds IH]; intros bs H.
  - inversion H; subst. reflexivity.
  - unfold Spec.drawn, Spec.draws in *. simpl in *.
    destruct (Imgui.HasUserCallback c); simpl in *.
    + rewrite (IH bs H). reflexivity.
    + inversion H as [|? b ? bs' [Hlen _] Hrest]; subst. simpl.
      rewrite length_app, Nat2Z.inj_add, (IH bs' Hrest). lia.
Qed.

Lemma blocks_impl (P Q : Imgui.DrawCmd -> GLTriangles.Vertex -> Prop)
    (cmds : list Imgui.DrawCmd) (out : GLTriangles.t) :
  (forall cmd v, P cmd v -> Q cmd v) ->
  Spec.blocks P cmds out -> Spec.blocks Q cmds out.
Proof.
  intros HPQ (bs & Hout & Hbs). exists bs. split; [exact Hout|].
  eapply Forall2_impl; [exact Hbs|]. intros cmd vs [Hlen Hall]. split; [exact Hlen|].
  eapply Forall_impl; [exact Hall|]. apply HPQ.
Qed.

(** The frame translator returns, and what it submits is the runs of the
    drawing commands, cut to their total length. *)
Lemma Draw_blocks (ui : UI) (L : Imgui.Layout) (mem : Imgui.Memory) (data : Imgui.DrawData) :
  Spec.wf_frame ui data ->
  exists r,
    Draw ui L mem data = Some r /\
    shaderTris (ui_after r) = submitted r /\
    GLTriangles.Len (submitted r) = Spec.frameElemCount data /\
    Spec.blocks (Spec.attached (updateMatrix ui)) (Spec.frameCommands data) (submitted r).
Proof.
  intros (Htex & Hwf & Hfit). unfold Draw.
  destruct (foldM_drawCmdList_emits (updateMatrix ui) L mem Htex data
              (mkLoop 0 (shaderTris (updateMatrix ui)) 0 []) [])
    as (st & bs & -> & [Htot [rest Htris]] & Hbs & Hsum).
  { exact Hwf. }
  { split; simpl; eauto. }
  { simpl. lia. }
  simpl in *. unfold GLTriangles.SetLen, GLTriangles.Len.
  rewrite Htris, Htot, length_app.
  destruct (Z.ltb_spec (Z.of_nat (length (concat bs))) 0); [lia|].
  destruct (Z.ltb_spec (Z.of_nat (length (concat bs) + length rest))
                       (Z.of_nat (length (concat bs)))); [lia|].
  rewrite Nat2Z.id, take_app_length. simpl.
  destruct (Pixel.Textures (atlas ui)) as [|tex texs]; [congruence|]. simpl.
  eexists. split; [reflexivity|]. simpl. split; [reflexivity|].
  split; [lia|]. exists bs. auto.
Qed.

(** ** Order on [float64] *)

Lemma SFcompare_antisym (a b : spec_float) :
  SFcompare b a = option_map CompOpp (SFcompare a b).
Proof.
  destruct a as [sa|sa| |sa ma ea], b as [sb|sb| |sb mb eb]; simpl;
    try reflexivity; try (destruct sa; reflexivity); try (destruct sb; reflexivity);
    try (destruct sa, sb; reflexivity).
  destruct sa, sb; simpl; try reflexivity; f_equal;
    rewrite (Z.compare_antisym ea eb); destruct (ea ?= eb); simpl; try reflexivity;
    rewrite (Pos.compare_cont_antisym ma mb Eq); simpl;
    try rewrite CompOpp_involutive; reflexivity.
Qed.

Lemma ltb_leb (x y : float) : PrimFloat.ltb x y = true -> PrimFloat.leb x y = true.
Proof.
  rewrite ltb_spec, leb_spec. unfold SFltb, SFleb.
  destruct (SFcompare _ _) as [[]|]; congruence.
Qed.

Lemma eqb_leb (x y : float) : PrimFloat.eqb x y = true -> PrimFloat.leb x y = true.
Proof.
  rewrite FloatAxioms.eqb_spec, leb_spec. unfold SFeqb, SFleb.
  destruct (SFcompare _ _) as [[]|]; congruence.
Qed.

Lemma eqb_sym (x y : float) : PrimFloat.eqb x y = PrimFloat.eqb y x.
Proof.
  rewrite !FloatAxioms.eqb_spec. unfold SFeqb.
  rewrite (SFcompare_antisym (Prim2SF x) (Prim2SF y)).
  destruct (SFcompare _ _) as [[]|]; reflexivity.
Qed.

Lemma leb_refl (x : float) : is_nan x = false -> PrimFloat.leb x x = true.
Proof.
  unfold is_nan. intros H. apply eqb_leb. now apply negb_false_iff.
Qed.

Create HintDb float_order.
#[local] Hint Resolve ltb_leb eqb_leb leb_refl : float_order.

Lemma not_nan_spec (x : float) : is_nan x = false -> Prim2SF x <> S754_nan.
Proof.
  unfold is_nan. rewrite FloatAxioms.eqb_spec. intros H E. rewrite E in H. discriminate H.
Qed.

Lemma is_nan_eq (x : float) : is_nan x = true -> x = nan.
Proof.
  intros H. rewrite <- (SF2Prim_Prim2SF x). unfold Prim2SF. rewrite H. reflexivity.
Qed.

Lemma leb_neg_infinity (z : float) : is_nan z = false -> PrimFloat.leb neg_infinity z = true.
Proof.
  intros H. apply not_nan_spec in H. rewrite leb_spec.
  change (Prim2SF neg_infinity) with (S754_infinity true).
  destruct (Prim2SF z) as [s|s| |s m e]; try congruence; try reflexivity.
  destruct s; reflexivity.
Qed.

Lemma leb_infinity (z : float) : is_nan z = false -> PrimFloat.leb z infinity = true.
Proof.
  intros H. apply not_nan_spec in H. rewrite leb_spec.
  change (Prim2SF infinity) with (S754_infinity false).
  destruct (Prim2SF z) as [s|s| |s m e]; try congruence; try reflexivity;
    destruct s; reflexivity.
Qed.

Lemma eqb_neg_infinity (x : float) : PrimFloat.eqb x neg_infinity = true -> x = neg_infinity.
Proof.
  rewrite FloatAxioms.eqb_spec. change (Prim2SF neg_infinity) with (S754_infinity true).
  intros H. rewrite <- (SF2Prim_Prim2SF x).
  destruct (Prim2SF x) as [s|s| |s m e]; try discriminate H; destruct s; try discriminate H.
  reflexivity.
Qed.

Lemma eqb_infinity (x : float) : PrimFloat.eqb x infinity = true -> x = infinity.
Proof.
  rewrite FloatAxioms.eqb_spec. change (Prim2SF infinity) with (S754_infinity false).
  intros H. rewrite <- (SF2Prim_Prim2SF x).
  destruct (Prim2SF x) as [s|s| |s m e]; try discriminate H; destruct s; try discriminate H.
  reflexivity.
Qed.

Lemma Min_idem (x : float) : Math.Min x x = x.
Proof.
  unfold Math.Min. rewrite orb_diag.
  destruct (PrimFloat.eqb x neg_infinity) eqn:Hinf.
  { symmetry. now apply eqb_neg_infinity. }
  rewrite orb_diag. destruct (is_nan x) eqn:Hnan.
  { symmetry. now apply is_nan_eq. }
  destruct (PrimFloat.eqb x 0 && PrimFloat.eqb x x);
    [destruct (Math.is_neg_zero x) | destruct (PrimFloat.ltb x x)]; reflexivity.
Qed.

Lemma Max_idem (x : float) : Math.Max x x = x.
Proof.
  unfold Math.Max. rewrite orb_diag.
  destruct (PrimFloat.eqb x infinity) eqn:Hinf.
  { symmetry. now apply eqb_infinity. }
  rewrite orb_diag. destruct (is_nan x) eqn:Hnan.
  { symmetry. now apply is_nan_eq. }
  destruct (PrimFloat.eqb x 0 && PrimFloat.eqb x x);
    [destruct (Math.is_neg_zero x) | destruct (PrimFloat.ltb x x)]; reflexivity.
Qed.

Lemma Min_le_Max (x y : float) :
  is_nan (Math.Min x y) = false -> is_nan (Math.Max x y) = false ->
  PrimFloat.leb (Math.Min x y) (Math.Max x y) = true.
Proof.
  intros Hmin Hmax.
  destruct (PrimFloat.eqb x neg_infinity || PrimFloat.eqb y neg_infinity) eqn:Hlo.
  { revert Hmax. unfold Math.Min. rewrite Hlo. apply leb_neg_infinity. }
  destruct (PrimFloat.eqb x infinity || PrimFloat.eqb y infinity) eqn:Hhi.
  { revert Hmin. unfold Math.Max. rewrite Hhi. apply leb_infinity. }
  revert Hmin Hmax. unfold Math.Min, Math.Max. rewrite Hlo, Hhi.
  destruct (is_nan x || is_nan y) eqn:Hnan; [discriminate|].
  apply orb_false_iff in Hnan as [Hx Hy]. intros _ _.
  destruct (PrimFloat.eqb x 0 && PrimFloat.eqb x y) eqn:Hz.
  - apply andb_true_iff in Hz as [_ Hxy].
    pose proof (eqb_leb _ _ Hxy) as Hle.
    rewrite eqb_sym in Hxy. pose proof (eqb_leb _ _ Hxy) as Hge.
    destruct (Math.is_neg_zero x); assumption.
  - destruct (PrimFloat.ltb x y) eqn:Hlt, (PrimFloat.ltb y x) eqn:Hgt;
      auto with float_order.
Qed.

(** ** Multiplying by one and by zero *)

Lemma Prim2SF_inj (x y : float) : Prim2SF x = Prim2SF y -> x = y.
Proof. intros H. rewrite <- (SF2Prim_Prim2SF x), <- (SF2Prim_Prim2SF y). now f_equal. Qed.

Lemma digits2_shift52 (m : positive) :
  Z.pos (digits2_pos (Pos.mul 4503599627370496 m)) = 52 + Z.pos (digits2_pos m).
Proof.
  change (Pos.mul 4503599627370496 m) with (Pos.iter xO m 52).
  cbn [Pos.iter digits2_pos]. rewrite !Pos2Z.inj_succ. lia.
Qed.

Lemma shr_shift52 (m : positive) :
  SpecFloat.iter_pos shr_1 52%positive
    (Build_shr_record (Z.pos (Pos.mul 4503599627370496 m)) false false)
  = Build_shr_record (Z.pos m) false false.
Proof. reflexivity. Qed.

(** The product of 1 = 2^52 * 2^-52 and a finite number: the 52 low bits
    shifted out are zero, so the rounding is exact. *)
Lemma SFmul_1_finite (s : bool) (m : positive) (e : Z) :
  SpecFloat.valid_binary prec emax (S754_finite s m e) = true ->
  SFmul prec emax (S754_finite false 4503599627370496 (-52)) (S754_finite s m e)
  = S754_finite s m e.
Proof.
  unfold SpecFloat.valid_binary, bounded, canonical_mantissa.
  intros [Hcanon Hmax]%andb_true_iff. apply Z.eqb_eq in Hcanon. apply Z.leb_le in Hmax.
  unfold SFmul, binary_round_aux. cbn [xorb].
  unfold shr_fexp at 1. unfold Zdigits2. rewrite digits2_shift52.
  replace (52 + Z.pos (digits2_pos m) + (-52 + e)) with (Z.pos (digits2_pos m) + e) by lia.
  rewrite Hcanon. replace (e - (-52 + e)) with 52 by lia.
  unfold shr. cbn [shr_record_of_loc]. rewrite shr_shift52.
  cbn [shr_m loc_of_shr_record round_nearest_even].
  unfold shr_fexp, Zdigits2.
  replace (-52 + e + 52) with e by lia. rewrite Hcanon, Z.sub_diag.
  cbn [shr shr_record_of_loc shr_m].
  destruct (Z.leb_spec e (emax - prec)); [reflexivity|lia].
Qed.

Lemma mul_1_l (x : float) : (1 * x)%float = x.
Proof.
  apply Prim2SF_inj. rewrite mul_spec.
  change (Prim2SF 1) with (S754_finite false 4503599627370496 (-52)).
  pose proof (Prim2SF_valid x) as Hv.
  destruct (Prim2SF x) as [s|s| |s m e]; try reflexivity.
  now apply SFmul_1_finite.
Qed.

Lemma zero_mul_add (s m : float) :
  Spec.finite s = true -> Math.is_neg_zero m = false -> (0 * s + m)%float = m.
Proof.
  unfold Spec.finite, Math.is_neg_zero. rewrite classify_spec. intros Hs Hm.
  apply Prim2SF_inj. rewrite add_spec, mul_spec.
  change (Prim2SF 0) with (S754_zero false).
  destruct (Prim2SF s) as [ss|ss| |ss ms es]; try discriminate Hs;
    destruct (Prim2SF m) as [sm|sm| |sm mm em]; simpl in *;
    try reflexivity; destruct ss, sm; try reflexivity; discriminate Hm.
Qed.

(** ** The frame translator's claims *)

Lemma sampleData_wf : Spec.wf_frame Spec.sampleUI Spec.sampleData.
Proof.
  split; [discriminate|]. split; [|reflexivity].
  unfold Spec.wf_cmd, GoInt.is_uint32.
  repeat constructor; simpl; try lia; try discriminate; intros _; vm_compute; eauto.
Qed.

(** C1. After the translation loop the triangle buffer [Draw] submits has
    as many vertices as the sum of [ElemCount] over the frame's commands
    without user callback; it is the UI's buffer, cut to that length,
    whatever length the previous frame left it with. *)
Theorem Draw_length (ui : UI) (L : Imgui.Layout) (mem : Imgui.Memory)
    (data : Imgui.DrawData) :
  Spec.wf_frame ui data ->
  exists r,
    Draw ui L mem data = Some r /\
    GLTriangles.Len (submitted r) = Spec.frameElemCount data /\
    shaderTris (ui_after r) = submitted r.
Proof.
  intros Hwf. destruct (Draw_blocks ui L mem data Hwf) as (r & Hr & Hbuf & Hlen & _).
  exists r. auto.
Qed.

Lemma Draw_length_witness :
  exists r,
    Draw Spec.sampleUI Spec.sampleLayout Spec.sampleMemory Spec.sampleData = Some r /\
    GLTriangles.Len (submitted r) = Spec.frameElemCount Spec.sampleData /\
    shaderTris (ui_after r) = submitted r.
Proof. exact (Draw_length _ _ _ _ sampleData_wf). Defined.

(** C5. Every output vertex of a drawing command carries intensity 0 when
    the command's texture id is the font's, and 1 otherwise; the buffer
    holds no other intensity. *)
Theorem Draw_intensity (ui : UI) (L : Imgui.Layout) (mem : Imgui.Memory)
    (data : Imgui.DrawData) :
  Spec.wf_frame ui data ->
  exists r,
    Draw ui L mem data = Some r /\
    Spec.blocks (fun cmd v =>
                   GLTriangles.Intensity v
                   = if GoInt.uint32 (Imgui.TexID cmd) =? font ui then 0%float else 1%float)
                (Spec.frameCommands data) (submitted r) /\
    Forall (fun v => GLTriangles.Intensity v = 0%float \/ GLTriangles.Intensity v = 1%float)
           (submitted r).
Proof.
  intros Hwf. destruct (Draw_blocks ui L mem data Hwf) as (r & Hr & _ & _ & Hb).
  exists r. split; [exact Hr|].
  assert (Hint : Spec.blocks (fun cmd v =>
                   GLTriangles.Intensity v
                   = if GoInt.uint32 (Imgui.TexID cmd) =? font ui then 0%float else 1%float)
                (Spec.frameCommands data) (submitted r)).
  { eapply blocks_impl; [|exact Hb]. intros cmd v [_ Hi]. rewrite Hi.
    unfold cmdIntensity. simpl. now destruct (_ =? _). }
  split; [exact Hint|].
  destruct Hint as (bs & -> & Hbs). apply Forall_concat.
  induction Hbs as [|cmd vs cmds bs' [_ Hvs] _ IH]; constructor; [|exact IH].
  eapply Forall_impl; [exact Hvs|]. intros v ->. simpl. destruct (_ =? _); auto.
Qed.

Lemma Draw_intensity_witness :
  exists r,
    Draw Spec.sampleUI Spec.sampleLayout Spec.sampleMemory Spec.sampleData = Some r /\
    Spec.blocks (fun cmd v =>
                   GLTriangles.Intensity v
                   = if GoInt.uint32 (Imgui.TexID cmd) =? font Spec.sampleUI
                     then 0%float else 1%float)
                (Spec.frameCommands Spec.sampleData) (submitted r) /\
    Forall (fun v => GLTriangles.Intensity v = 0%float \/ GLTriangles.Intensity v = 1%float)
           (submitted r).
Proof. exact (Draw_intensity _ _ _ _ sampleData_wf). Defined.

Lemma Norm_degenerate (p : Vec.t) : Rect.Norm (Rect.mk p p) = Rect.mk p p.
Proof.
  destruct p as [x y]. unfold Rect.Norm. simpl.
  now rewrite !Min_idem, !Max_idem.
Qed.

Lemma cmdClipRect_zero (m : Matrix.t) (cmd : Imgui.DrawCmd) :
  Imgui.ClipRect cmd = Spec.zeroClip ->
  cmdClipRect m cmd = Rect.mk (Matrix.Project m Vec.ZV) (Matrix.Project m Vec.ZV).
Proof.
  intros H. unfold cmdClipRect. rewrite H.
  change (Rect.Norm (imguiRectToPixelRect Spec.zeroClip)) with (Rect.mk Vec.ZV Vec.ZV).
  cbn [Rect.Min Rect.Max]. apply Norm_degenerate.
Qed.

Lemma cmdClipRect_normalized (m : Matrix.t) (cmd : Imgui.DrawCmd) :
  Spec.has_nan (cmdClipRect m cmd) = false ->
  Spec.normalized (cmdClipRect m cmd) = true.
Proof.
  unfold cmdClipRect, Spec.has_nan, Spec.normalized, Rect.Norm. simpl.
  rewrite !orb_false_r. intros H.
  apply orb_false_iff in H as [Hx H]. apply orb_false_iff in H as [Hy H].
  apply orb_false_iff in H as [HX HY].
  apply andb_true_iff. split; now apply Min_le_Max.
Qed.

(** C2, as the code has it. The all-zero clip rectangle is not passed
    through: the output vertices of a command whose clip rectangle is
    (0,0,0,0) carry the rectangle whose two corners are the projection of
    the origin through the view matrix [updateMatrix] sets. *)
Theorem Draw_zero_clip (ui : UI) (L : Imgui.Layout) (mem : Imgui.Memory)
    (data : Imgui.DrawData) :
  Spec.wf_frame ui data ->
  exists r,
    Draw ui L mem data = Some r /\
    Spec.blocks (fun cmd v =>
                   Imgui.ClipRect cmd = Spec.zeroClip ->
                   GLTriangles.ClipRect v
                   = Rect.mk (Matrix.Project (matrix (updateMatrix ui)) Vec.ZV)
                             (Matrix.Project (matrix (updateMatrix ui)) Vec.ZV))
                (Spec.frameCommands data) (submitted r).
Proof.
  intros Hwf. destruct (Draw_blocks ui L mem data Hwf) as (r & Hr & _ & _ & Hb).
  exists r. split; [exact Hr|].
  eapply blocks_impl; [|exact Hb]. intros cmd v [Hc _] Hz. rewrite Hc.
  now apply cmdClipRect_zero.
Qed.

Lemma Draw_zero_clip_witness :
  exists r,
    Draw Spec.sampleUI Spec.sampleLayout Spec.sampleMemory Spec.sampleData = Some r /\
    Spec.blocks (fun cmd v =>
                   Imgui.ClipRect cmd = Spec.zeroClip ->
                   GLTriangles.ClipRect v
                   = Rect.mk (Matrix.Project (matrix (updateMatrix Spec.sampleUI)) Vec.ZV)
                             (Matrix.Project (matrix (updateMatrix Spec.sampleUI)) Vec.ZV))
                (Spec.frameCommands Spec.sampleData) (submitted r).
Proof. exact (Draw_zero_clip _ _ _ _ sampleData_wf). Defined.

(** C2 fails as stated: in a 1024x768 window the three vertices of a
    command clipped by (0,0,0,0) carry (0,768,0,768). *)
Lemma zero_clip_not_passed_through :
  Imgui.ClipRect Spec.glyphs = Spec.zeroClip /\
  exists r,
    Draw Spec.sampleUI Spec.sampleLayout Spec.sampleMemory
         [Imgui.mkDrawList [Spec.glyphs] 4096 8192] = Some r /\
    map GLTriangles.ClipRect (submitted r)
    = [Rect.R 0 768 0 768; Rect.R 0 768 0 768; Rect.R 0 768 0 768] /\
    Rect.R 0 768 0 768 <> Spec.zeroRect.
Proof.
  split; [reflexivity|]. eexists. split; [vm_compute; reflexivity|].
  split; [vm_compute; reflexivity|].
  intros H. apply (f_equal (fun r => PrimFloat.eqb (Vec.Y (Rect.Min r)) 0)) in H.
  vm_compute in H. discriminate H.
Qed.

(** C8, as the code has it. The clip rectangle on the output vertices of a
    drawing command is in normal form unless one of its coordinates is
    not a number. *)
Theorem Draw_clip_normalized (ui : UI) (L : Imgui.Layout) (mem : Imgui.Memory)
    (data : Imgui.DrawData) :
  Spec.wf_frame ui data ->
  exists r,
    Draw ui L mem data = Some r /\
    Spec.blocks (fun cmd v =>
                   Spec.has_nan (GLTriangles.ClipRect v) = false ->
                   Spec.normalized (GLTriangles.ClipRect v) = true)
                (Spec.frameCommands data) (submitted r).
Proof.
  intros Hwf. destruct (Draw_blocks ui L mem data Hwf) as (r & Hr & _ & _ & Hb).
  exists r. split; [exact Hr|].
  eapply blocks_impl; [|exact Hb]. intros cmd v [Hc _]. rewrite Hc.
  apply cmdClipRect_normalized.
Qed.

Lemma Draw_clip_normalized_witness :
  exists r,
    Draw Spec.sampleUI Spec.sampleLayout Spec.sampleMemory Spec.sampleData = Some r /\
    Spec.blocks (fun cmd v =>
                   Spec.has_nan (GLTriangles.ClipRect v) = false ->
                   Spec.normalized (GLTriangles.ClipRect v) = true)
                (Spec.frameCommands Spec.sampleData) (submitted r).
Proof. exact (Draw_clip_normalized _ _ _ _ sampleData_wf). Defined.

(** C8 fails as stated: the projection turns the unbounded clip rectangle
    (-Inf,-Inf,+Inf,+Inf) into not-a-number coordinates, and the rectangle
    on the three output vertices is not in normal form. *)
Lemma unbounded_clip_not_normalized :
  Imgui.HasUserCallback Spec.unbounded = false /\
  exists r,
    Draw Spec.sampleUI Spec.sampleLayout Spec.sampleMemory
         [Imgui.mkDrawList [Spec.unbounded] 4096 8192] = Some r /\
    map (fun v => Spec.normalized (GLTriangles.ClipRect v)) (submitted r)
    = [false; false; false].
Proof.
  split; [reflexivity|]. eexists. split; vm_compute; reflexivity.
Qed.

(** C3, as the code has it. [calcData] multiplies by the reciprocal of
    the atlas texture's size: it returns
    (raw_uv * frame.size + frame.min) * (1 / atlas_texture.size)
    componentwise in [float64], with frame.size = frame.max - frame.min.
    Raw UV (1,1) is mapped to
    ((frame.max - frame.min) + frame.min) * (1 / atlas_texture.size),
    which is frame.max * (1 / atlas_texture.size) when that sum gives
    frame.max back; raw UV (0,0) is mapped to
    frame.min * (1 / atlas_texture.size) when the frame's size is finite
    and no coordinate of frame.min is the negative zero. *)
Theorem calcData_formula (ui : UI) (frame : Rect.t) (uv : Vec.t)
    (tex : Rect.t) (texs : list Rect.t) :
  Pixel.Textures (atlas ui) = tex :: texs ->
  let minX := Vec.X (Rect.Min frame) in
  let minY := Vec.Y (Rect.Min frame) in
  let maxX := Vec.X (Rect.Max frame) in
  let maxY := Vec.Y (Rect.Max frame) in
  let rX := (1 / (Vec.X (Rect.Max tex) - Vec.X (Rect.Min tex)))%float in
  let rY := (1 / (Vec.Y (Rect.Max tex) - Vec.Y (Rect.Min tex)))%float in
  calcData ui frame uv
  = Some (Vec.V ((Vec.X uv * (maxX - minX) + minX) * rX)%float
                ((Vec.Y uv * (maxY - minY) + minY) * rY)%float) /\
  calcData ui frame (Vec.V 1 1)
  = Some (Vec.V (((maxX - minX) + minX) * rX)%float
                (((maxY - minY) + minY) * rY)%float) /\
  (((maxX - minX) + minX)%float = maxX -> ((maxY - minY) + minY)%float = maxY ->
   calcData ui frame (Vec.V 1 1)
   = Some (Vec.V (maxX * rX)%float (maxY * rY)%float)) /\
  (Spec.finite (maxX - minX)%float = true -> Spec.finite (maxY - minY)%float = true ->
   Math.is_neg_zero minX = false -> Math.is_neg_zero minY = false ->
   calcData ui frame (Vec.V 0 0)
   = Some (Vec.V (minX * rX)%float (minY * rY)%float)).
Proof.
  intros H minX minY maxX maxY rX rY.
  assert (Hall : forall w, calcData ui frame w
                 = Some (Vec.V ((Vec.X w * (maxX - minX) + minX) * rX)%float
                               ((Vec.Y w * (maxY - minY) + minY) * rY)%float))
    by (intros w; unfold calcData; rewrite H; reflexivity).
  assert (Hone : calcData ui frame (Vec.V 1 1)
                 = Some (Vec.V (((maxX - minX) + minX) * rX)%float
                               (((maxY - minY) + minY) * rY)%float))
    by (rewrite Hall; cbn [Vec.X Vec.Y]; now rewrite !mul_1_l).
  split; [apply Hall|]. split; [exact Hone|]. split.
  - intros HX HY. now rewrite Hone, HX, HY.
  - intros HfX HfY HzX HzY. rewrite Hall. cbn [Vec.X Vec.Y].
    now rewrite (zero_mul_add _ _ HfX HzX), (zero_mul_add _ _ HfY HzY).
Qed.

Lemma calcData_formula_witness :
  let frame := Rect.R 9 0 59 50 in
  calcData Spec.sampleUI frame (Vec.V 0.5 0.25)
  = Some (Vec.V ((0.5 * (59 - 9) + 9) * (1 / (1000 - 0)))%float
                ((0.25 * (50 - 0) + 0) * (1 / (1000 - 0)))%float) /\
  calcData Spec.sampleUI frame (Vec.V 1 1)
  = Some (Vec.V (59 * (1 / (1000 - 0)))%float (50 * (1 / (1000 - 0)))%float) /\
  calcData Spec.sampleUI frame (Vec.V 0 0)
  = Some (Vec.V (9 * (1 / (1000 - 0)))%float (0 * (1 / (1000 - 0)))%float).
Proof.
  intros frame.
  pose proof (calcData_formula Spec.sampleUI frame (Vec.V 0.5 0.25)
                (Rect.R 0 0 1000 1000) [] eq_refl) as (Hall & _ & Hmax & Hmin).
  split; [exact Hall|]. split.
  - apply Hmax; reflexivity.
  - apply Hmin; reflexivity.
Defined.

(** C3 fails as stated: for the frame (9,0)-(59,50) of a 1000x1000 atlas
    texture, raw UV (0,0) is mapped to 9 * (1/1000), which is not the
    [float64] 9/1000, and raw UV (1,1) to 59 * (1/1000), which is not
    59/1000. *)
Lemma calcData_corner_drift :
  let frame := Rect.R 9 0 59 50 in
  let tex := Rect.R 0 0 1000 1000 in
  Pixel.Textures (atlas Spec.sampleUI) = [tex] /\
  calcData Spec.sampleUI frame (Vec.V 0 0) <> Some (Spec.atlasRemap frame tex (Vec.V 0 0)) /\
  calcData Spec.sampleUI frame (Vec.V 0 0)
  <> Some (Vec.V (Vec.X (Rect.Min frame) / Rect.W tex) (Vec.Y (Rect.Min frame) / Rect.H tex))%float /\
  calcData Spec.sampleUI frame (Vec.V 1 1)
  <> Some (Vec.V (Vec.X (Rect.Max frame) / Rect.W tex) (Vec.Y (Rect.Max frame) / Rect.H tex))%float.
Proof.
  intros frame tex. split; [reflexivity|].
  repeat split; intros H;
    match type of H with _ = Some ?v =>
      apply (f_equal (fun o => match o with
                               | Some w => PrimFloat.eqb (Vec.X w) (Vec.X v)
                               | None => false
                               end)) in H
    end; vm_compute in H; discriminate H.
Qed.

Lemma foldM_app {A S : Type} (f : A -> S -> option S) (a b : list A) (s : S) :
  foldM f (a ++ b) s = foldM f a s ≫= foldM f b.
Proof.
  revert s. induction a as [|x a IH]; intros s; simpl; [reflexivity|].
  destruct (f x s) as [s'|]; simpl; [apply IH | reflexivity].
Qed.

(** C9. A command list without commands leaves [totalTris], the triangle
    buffer and the callbacks called as they are, and a frame draws the same
    with or without it. *)
Theorem drawCmdList_empty (ui : UI) (L : Imgui.Layout) (mem : Imgui.Memory)
    (vtx idx : Z) (st : Loop) (before after : Imgui.DrawData) :
  drawCmdList ui L mem (Imgui.mkDrawList [] vtx idx) st
  = Some (mkLoop (totalTris st) (tris st) 0 (called st)) /\
  Draw ui L mem (before ++ Imgui.mkDrawList [] vtx idx :: after)
  = Draw ui L mem (before ++ after).
Proof.
  split; [reflexivity|]. unfold Draw. rewrite !foldM_app.
  destruct (foldM _ before _) as [s|]; simpl; [|reflexivity].
  destruct after as [|cmds after]; reflexivity.
Qed.
(** ** [Draw] as a function of the draw data *)

Lemma uintptr_add (a b : Z) :
  GoInt.uintptr (GoInt.uintptr a + GoInt.uintptr b) = (a + b) mod 2 ^ 64.
Proof. unfold GoInt.uintptr. symmetry. apply Zplus_mod. Qed.

Lemma uintptr_add_r (a b : Z) :
  GoInt.uintptr (a + GoInt.uintptr b) = (a + b) mod 2 ^ 64.
Proof. unfold GoInt.uintptr. apply Zplus_mod_idemp_r. Qed.

Lemma uintptr_int (z : Z) : GoInt.uintptr (GoInt.int z) = z mod 2 ^ 64.
Proof.
  unfold GoInt.uintptr, GoInt.int. rewrite Zminus_mod_idemp_l. f_equal. lia.
Qed.

Lemma uintptr_mod (z : Z) : GoInt.uintptr (z mod 2 ^ 64) = z mod 2 ^ 64.
Proof. unfold GoInt.uintptr. apply Z.mod_mod. lia. Qed.

Lemma next_index_offset (L : Imgui.Layout) (k : Z) :
  GoInt.uintptr ((k * Imgui.indexSize L) mod 2 ^ 64 + GoInt.uintptr (Imgui.indexSize L))
  = ((k + 1) * Imgui.indexSize L) mod 2 ^ 64.
Proof.
  change ((k * Imgui.indexSize L) mod 2 ^ 64) with (GoInt.uintptr (k * Imgui.indexSize L)).
  rewrite uintptr_add. f_equal. lia.
Qed.

Lemma index_address (L : Imgui.Layout) (cmds : Imgui.DrawList) (k : Z) :
  GoInt.uintptr (GoInt.uintptr (Imgui.IndexBuffer cmds) + (k * Imgui.indexSize L) mod 2 ^ 64)
  = Render.indexAddr L cmds k.
Proof.
  change ((k * Imgui.indexSize L) mod 2 ^ 64) with (GoInt.uintptr (k * Imgui.indexSize L)).
  apply uintptr_add.
Qed.

Lemma vertex_address (L : Imgui.Layout) (cmds : Imgui.DrawList) (index : Z) :
  0 <= index < 2 ^ 16 ->
  GoInt.uintptr (GoInt.uintptr (Imgui.VertexBuffer cmds)
                 + GoInt.uintptr (GoInt.int (GoInt.int index * Imgui.vertexSize L)))
  = Render.vertexAddr L cmds index.
Proof.
  intros H. rewrite (int_small index) by lia.
  rewrite uintptr_int. unfold GoInt.uintptr, Render.vertexAddr.
  symmetry. apply Zplus_mod.
Qed.

Lemma field_address (ptr offset : Z) :
  GoInt.uintptr (GoInt.uintptr ptr + GoInt.uintptr offset) = Render.fieldAddr ptr offset.
Proof. apply uintptr_add. Qed.

Section Exact.

Variables (ui : UI) (L : Imgui.Layout) (mem : Imgui.Memory).
Hypothesis Htex : Pixel.Textures (atlas ui) <> [].
Hypothesis Hmatrix : matrix ui = matrix (updateMatrix ui).

Lemma drawVertex_exact (cmds : Imgui.DrawList) (cmd : Imgui.DrawCmd)
    (texRect : Rect.t) (iStart i k : Z)
    (pre : GLTriangles.t) (b : GLTriangles.Vertex) (rest : GLTriangles.t) :
  Pixel.Frame (atlas ui) (GoInt.uint32 (Imgui.TexID cmd)) = Some texRect ->
  iStart + i = Z.of_nat (length pre) -> iStart + i < 2 ^ 63 ->
  drawVertex ui L mem cmds iStart (cmdClipRect (matrix ui) cmd) texRect
             (cmdIntensity ui cmd) i
             (pre ++ b :: rest, (k * Imgui.indexSize L) mod 2 ^ 64)
  = Some (pre ++ Render.vertexOf ui L mem cmds cmd k :: rest,
          ((k + 1) * Imgui.indexSize L) mod 2 ^ 64).
Proof.
  intros Hframe Hi Hlt. unfold drawVertex, calcData. cbv zeta.
  rewrite !index_address.
  assert (Hindex : 0 <= GoInt.uint16 (Imgui.load_uint16 mem (Render.indexAddr L cmds k))
                   < 2 ^ 16) by (apply Z.mod_pos_bound; lia).
  rewrite !(vertex_address L cmds _ Hindex), !field_address, next_index_offset.
  rewrite (int_small (iStart + i)) by lia.
  destruct (Pixel.Textures (atlas ui)) as [|tex texs] eqn:Htexs; [congruence|].
  cbn [head mbind option_bind].
  unfold GLTriangles.SetPosition. rewrite (update_middle _ pre b rest _ Hi).
  cbn [mbind option_bind].
  unfold GLTriangles.SetPicture. rewrite (update_middle _ pre _ rest _ Hi).
  cbn [mbind option_bind].
  unfold GLTriangles.SetColor. rewrite (update_middle _ pre _ rest _ Hi).
  cbn [mbind option_bind].
  unfold GLTriangles.SetClipRect. rewrite (update_middle _ pre _ rest _ Hi).
  cbn [mbind option_bind].
  unfold Render.vertexOf. rewrite Htexs, Hframe, <- Hmatrix. reflexivity.
Qed.

Lemma foldM_drawVertex_exact (cmds : Imgui.DrawList) (cmd : Imgui.DrawCmd)
    (texRect : Rect.t) (iStart k : Z) (body : GLTriangles.t) :
  Pixel.Frame (atlas ui) (GoInt.uint32 (Imgui.TexID cmd)) = Some texRect ->
  forall (m : Z) (pre post : GLTriangles.t),
    iStart + m = Z.of_nat (length pre) ->
    iStart + m + Z.of_nat (length body) <= 2 ^ 63 ->
    foldM (drawVertex ui L mem cmds iStart (cmdClipRect (matrix ui) cmd) texRect
                      (cmdIntensity ui cmd))
          (seqZ m (Z.of_nat (length body)))
          (pre ++ body ++ post, ((k + m) * Imgui.indexSize L) mod 2 ^ 64)
    = Some (pre ++ map (Render.vertexOf ui L mem cmds cmd)
                       (seqZ (k + m) (Z.of_nat (length body))) ++ post,
            ((k + m + Z.of_nat (length body)) * Imgui.indexSize L) mod 2 ^ 64).
Proof.
  intros Hframe. induction body as [|b body IH]; intros m pre post Hm Hfit.
  - simpl. now rewrite Z.add_0_r.
  - simpl length in *.
    rewrite (seqZ_cons m), (seqZ_cons (k + m)) by lia.
    replace (Z.pred (Z.of_nat (S (length body)))) with (Z.of_nat (length body)) by lia.
    cbn [foldM map app].
    rewrite (drawVertex_exact cmds cmd texRect iStart m (k + m) pre b (body ++ post)
               Hframe Hm ltac:(lia)).
    cbn [mbind option_bind].
    replace (k + m + 1) with (k + Z.succ m) by lia.
    replace (pre ++ Render.vertexOf ui L mem cmds cmd (k + m) :: body ++ post)
      with ((pre ++ [Render.vertexOf ui L mem cmds cmd (k + m)]) ++ body ++ post)
      by (now rewrite <- (assoc_L (++))).
    rewrite IH; [|rewrite length_app; simpl; lia|lia].
    rewrite <- (assoc_L (++)). cbn [app].
    replace (Z.succ (k + m)) with (k + Z.succ m) by lia.
    do 3 f_equal. lia.
Qed.

Lemma drawCmd_exact (cmds : Imgui.DrawList) (cmd : Imgui.DrawCmd)
    (st : Loop) (out rest : GLTriangles.t) (k : Z) :
  Spec.wf_cmd ui cmd ->
  totalTris st = Z.of_nat (length out) -> tris st = out ++ rest ->
  totalTris st + Spec.elemCount [cmd] < 2 ^ 63 ->
  indexBufferOffset st = (k * Imgui.indexSize L) mod 2 ^ 64 ->
  exists rest',
    drawCmd ui L mem cmds cmd st
    = Some (mkLoop (totalTris st + Spec.elemCount [cmd])
                   ((out ++ Render.listVertices ui L mem cmds [cmd] k) ++ rest')
                   (((k + Spec.elemCount [cmd]) * Imgui.indexSize L) mod 2 ^ 64)
                   (called st ++ map Imgui.UserCallback
                                     (List.filter Imgui.HasUserCallback [cmd]))).
Proof.
  intros [Hcount Hres] Htot Htris Hfit Hoff.
  unfold drawCmd, Spec.elemCount in *. cbn [foldr Render.listVertices List.filter] in *.
  destruct (Imgui.HasUserCallback cmd) eqn:Hcb.
  - exists rest. rewrite !Z.add_0_r, app_nil_r, <- Htris, <- Hoff. reflexivity.
  - destruct (Hres eq_refl) as [texRect Hframe].
    rewrite (uint32_small _ Hcount) in *. unfold GoInt.is_uint32 in Hcount.
    set (n := Imgui.ElemCount cmd) in *. rewrite Z.add_0_r in *.
    rewrite (int_small n) by lia. rewrite int_small by lia.
    assert (exists body post,
               (if GLTriangles.Len (tris st) <? totalTris st + n
                then GLTriangles.SetLen (totalTris st + n) (tris st)
                else Some (tris st)) = Some (out ++ body ++ post) /\
               Z.of_nat (length body) = n) as (body & post & -> & Hbody).
    { unfold GLTriangles.SetLen, GLTriangles.Len. rewrite Htris, length_app.
      destruct (Z.ltb_spec (Z.of_nat (length out + length rest)) (totalTris st + n))
        as [Hgrow|Hfits].
      - destruct (Z.ltb_spec (totalTris st + n) 0); [lia|].
        set (j := Z.to_nat _).
        exists (rest ++ replicate j GLTriangles.fresh), [].
        rewrite app_nil_r, (assoc_L (++)). split; [reflexivity|].
        rewrite length_app, length_replicate. subst j. lia.
      - exists (take (Z.to_nat n) rest), (drop (Z.to_nat n) rest).
        rewrite take_drop. split; [reflexivity|].
        rewrite length_take. lia. }
    cbn [mbind option_bind]. rewrite Hframe. cbn [mbind option_bind].
    rewrite Hoff, <- Hbody.
    pose proof (foldM_drawVertex_exact cmds cmd texRect (totalTris st) k body Hframe
                  0 out post ltac:(lia) ltac:(lia)) as Hfold.
    rewrite !Z.add_0_r in Hfold. rewrite Hfold.
    cbn [mbind option_bind fst snd map]. exists post.
    rewrite !app_nil_r, <- (assoc_L (++)). reflexivity.
Qed.

Lemma listVertices_cons (cmds : Imgui.DrawList) (cmd : Imgui.DrawCmd)
    (l : list Imgui.DrawCmd) (k : Z) :
  Render.listVertices ui L mem cmds (cmd :: l) k
  = Render.listVertices ui L mem cmds [cmd] k
    ++ Render.listVertices ui L mem cmds l (k + Spec.elemCount [cmd]).
Proof.
  unfold Spec.elemCount. simpl. destruct (Imgui.HasUserCallback cmd); simpl.
  - now rewrite Z.add_0_r.
  - now rewrite app_nil_r, Z.add_0_r.
Qed.

Lemma foldM_drawCmd_exact (cmds : Imgui.DrawList) (l : list Imgui.DrawCmd) :
  forall (st : Loop) (out rest : GLTriangles.t) (k : Z),
    Forall (Spec.wf_cmd ui) l ->
    totalTris st = Z.of_nat (length out) -> tris st = out ++ rest ->
    totalTris st + Spec.elemCount l < 2 ^ 63 ->
    indexBufferOffset st = (k * Imgui.indexSize L) mod 2 ^ 64 ->
    exists rest' off,
      foldM (drawCmd ui L mem cmds) l st
      = Some (mkLoop (totalTris st + Spec.elemCount l)
                     ((out ++ Render.listVertices ui L mem cmds l k) ++ rest')
                     off
                     (called st ++ map Imgui.UserCallback
                                       (List.filter Imgui.HasUserCallback l))).
Proof.
  induction l as [|cmd l IH]; intros st out rest k Hwf Htot Htris Hfit Hoff.
  - exists rest, (indexBufferOffset st). simpl.
    rewrite Z.add_0_r, !app_nil_r, <- Htris. now destruct st.
  - apply Forall_cons in Hwf as [Hcmd Hwf].
    change (cmd :: l) with ([cmd] ++ l) in Hfit. rewrite elemCount_app in Hfit.
    pose proof (elemCount_nonneg ui l Hwf) as Hpos.
    pose proof (elemCount_nonneg ui [cmd] ltac:(now constructor)) as Hpos1.
    destruct (drawCmd_exact cmds cmd st out rest k Hcmd Htot Htris ltac:(lia) Hoff)
      as (rest1 & Hstep).
    cbn [foldM]. rewrite Hstep. cbn [mbind option_bind].
    match goal with |- context [foldM _ l ?s] =>
      destruct (IH s (out ++ Render.listVertices ui L mem cmds [cmd] k) rest1
                  (k + Spec.elemCount [cmd]) Hwf) as (rest' & off & Hfold);
        [ | reflexivity | | reflexivity | ]
    end.
    + cbn [totalTris]. rewrite length_app, Nat2Z.inj_add, <- Htot. f_equal.
      unfold Spec.elemCount. simpl. destruct Hcmd as [Hc _]. unfold GoInt.is_uint32 in Hc.
      destruct (Imgui.HasUserCallback cmd); simpl; [reflexivity|].
      rewrite app_nil_r, length_map, length_seqZ. lia.
    + cbn [totalTris]. lia.
    + exists rest', off. rewrite Hfold. cbn [totalTris called].
      rewrite (listVertices_cons cmds cmd l k).
      change (cmd :: l) with ([cmd] ++ l).
      rewrite elemCount_app, List.filter_app, map_app.
      do 2 f_equal; [lia | now rewrite !(assoc_L (++)) | now rewrite (assoc_L (++))].
Qed.

End Exact.

Lemma listVertices_length (ui : UI) (L : Imgui.Layout) (mem : Imgui.Memory)
    (cmds : Imgui.DrawList) (l : list Imgui.DrawCmd) :
  Forall (Spec.wf_cmd ui) l ->
  forall k, Z.of_nat (length (Render.listVertices ui L mem cmds l k)) = Spec.elemCount l.
Proof.
  induction 1 as [|cmd l [Hc _] _ IH]; intros k; [reflexivity|].
  unfold Spec.elemCount in *. simpl. unfold GoInt.is_uint32 in Hc.
  destruct (Imgui.HasUserCallback cmd); simpl; [apply IH|].
  rewrite length_app, length_map, length_seqZ, Nat2Z.inj_add, IH. lia.
Qed.

Lemma frame_length (ui : UI) (L : Imgui.Layout) (mem : Imgui.Memory)
    (data : Imgui.DrawData) :
  Forall (Spec.wf_cmd ui) (Spec.frameCommands data) ->
  Z.of_nat (length (Render.frame ui L mem data)) = Spec.frameElemCount data.
Proof.
  unfold Render.frame, Spec.frameElemCount, Spec.frameCommands.
  induction data as [|cmds data IH]; intros Hwf; [reflexivity|].
  simpl in *. apply Forall_app in Hwf as [Hhd Hwf].
  rewrite length_app, Nat2Z.inj_add, elemCount_app, IH by exact Hwf.
  now rewrite listVertices_length.
Qed.

Lemma frameCommands_cons (cmds : Imgui.DrawList) (data : Imgui.DrawData) :
  Spec.frameCommands (cmds :: data) = Imgui.Commands cmds ++ Spec.frameCommands data.
Proof. reflexivity. Qed.

Lemma foldM_drawCmdList_exact (ui : UI) (L : Imgui.Layout) (mem : Imgui.Memory)
    (data : Imgui.DrawData) :
  Pixel.Textures (atlas ui) <> [] -> matrix ui = matrix (updateMatrix ui) ->
  forall (st : Loop) (out rest : GLTriangles.t),
    Forall (Spec.wf_cmd ui) (Spec.frameCommands data) ->
    totalTris st = Z.of_nat (length out) -> tris st = out ++ rest ->
    totalTris st + Spec.frameElemCount data < 2 ^ 63 ->
    exists rest' off,
      foldM (drawCmdList ui L mem) data st
      = Some (mkLoop (totalTris st + Spec.frameElemCount data)
                     ((out ++ Render.frame ui L mem data) ++ rest')
                     off
                     (called st ++ Render.userCallbacks data)).
Proof.
  intros Htex Hmatrix. unfold Spec.frameElemCount, Render.frame, Render.userCallbacks.
  induction data as [|cmds data IH]; intros st out rest Hwf Htot Htris Hfit.
  - exists rest, (indexBufferOffset st). simpl.
    rewrite Z.add_0_r, !app_nil_r, <- Htris. now destruct st.
  - rewrite frameCommands_cons in *. apply Forall_app in Hwf as [Hhd Hwf].
    rewrite elemCount_app in Hfit.
    pose proof (elemCount_nonneg ui _ Hwf) as Hpos.
    pose proof (elemCount_nonneg ui _ Hhd) as Hpos1.
    destruct (foldM_drawCmd_exact ui L mem Htex Hmatrix cmds (Imgui.Commands cmds)
                (mkLoop (totalTris st) (tris st) 0 (called st)) out rest 0 Hhd
                Htot Htris ltac:(cbn [totalTris]; lia) eq_refl)
      as (rest1 & off1 & Hstep).
    change (drawCmdList ui L mem cmds st = Some
              (mkLoop (totalTris st + Spec.elemCount (Imgui.Commands cmds))
                 ((out ++ Render.listVertices ui L mem cmds (Imgui.Commands cmds) 0) ++ rest1)
                 off1
                 (called st ++ map Imgui.UserCallback
                                   (List.filter Imgui.HasUserCallback (Imgui.Commands cmds)))))
      in Hstep.
    cbn [foldM]. rewrite Hstep. cbn [mbind option_bind].
    match goal with |- context [foldM _ data ?s] =>
      destruct (IH s (out ++ Render.listVertices ui L mem cmds (Imgui.Commands cmds) 0)
                  rest1 Hwf) as (rest' & off & Hfold); [ | reflexivity | | ]
    end.
    + cbn [totalTris]. rewrite length_app, Nat2Z.inj_add, <- Htot. f_equal.
      symmetry. now apply listVertices_length.
    + cbn [totalTris]. lia.
    + exists rest', off. rewrite Hfold. cbn [totalTris called map concat].
      rewrite elemCount_app, List.filter_app, map_app.
      do 2 f_equal; [lia | now rewrite !(assoc_L (++)) | now rewrite (assoc_L (++))].
Qed.

Lemma listVertices_withBuffer (ui : UI) (m0 : Matrix.t) (tris0 : GLTriangles.t)
    (L : Imgui.Layout) (mem : Imgui.Memory) (cmds : Imgui.DrawList)
    (l : list Imgui.DrawCmd) (k : Z) :
  Render.listVertices (updateMatrix (Render.withBuffer ui m0 tris0)) L mem cmds l k
  = Render.listVertices ui L mem cmds l k.
Proof.
  revert k. induction l as [|cmd l IH]; intros k; simpl; [reflexivity|].
  now rewrite !IH.
Qed.

Lemma frame_withBuffer (ui : UI) (m0 : Matrix.t) (tris0 : GLTriangles.t)
    (L : Imgui.Layout) (mem : Imgui.Memory) (data : Imgui.DrawData) :
  Render.frame (updateMatrix (Render.withBuffer ui m0 tris0)) L mem data
  = Render.frame ui L mem data.
Proof.
  unfold Render.frame. induction data as [|cmds data IH]; simpl; [reflexivity|].
  now rewrite IH, listVertices_withBuffer.
Qed.

(** What a call of [Draw] returns, for any triangle buffer and matrix the
    earlier frames left in the UI. *)
Lemma Draw_exact (ui : UI) (L : Imgui.Layout) (mem : Imgui.Memory)
    (data : Imgui.DrawData) (m0 : Matrix.t) (tris0 : GLTriangles.t) :
  Spec.wf_frame ui data ->
  Draw (Render.withBuffer ui m0 tris0) L mem data
  = Some (mkDrawn
            (Render.withBuffer ui (matrix (updateMatrix ui)) (Render.frame ui L mem data))
            (Render.frame ui L mem data)
            (default (Rect.R 0 0 0 0) (head (Pixel.Textures (atlas ui))))
            (Render.userCallbacks data)).
Proof.
  intros (Htex & Hwf & Hfit). unfold Draw.
  destruct (foldM_drawCmdList_exact (updateMatrix (Render.withBuffer ui m0 tris0)) L mem
              data Htex eq_refl
              (mkLoop 0 (shaderTris (updateMatrix (Render.withBuffer ui m0 tris0))) 0 [])
              [] tris0 Hwf eq_refl eq_refl Hfit)
    as (rest & off & Hfold).
  rewrite Hfold. cbn [mbind option_bind totalTris tris called app].
  rewrite frame_withBuffer.
  pose proof (frame_length ui L mem data Hwf) as Hlen.
  unfold GLTriangles.SetLen, GLTriangles.Len. rewrite Z.add_0_l, <- Hlen, length_app.
  destruct (Z.ltb_spec (Z.of_nat (length (Render.frame ui L mem data))) 0); [lia|].
  destruct (Z.ltb_spec (Z.of_nat (length (Render.frame ui L mem data) + length rest))
                       (Z.of_nat (length (Render.frame ui L mem data)))); [lia|].
  rewrite Nat2Z.id, take_app_length. cbn [mbind option_bind].
  change (atlas (updateMatrix (Render.withBuffer ui m0 tris0))) with (atlas ui).
  destruct (Pixel.Textures (atlas ui)) as [|tex texs]; [congruence|]. reflexivity.
Qed.

(** X1. Whatever triangle buffer and matrix the earlier frames left, the
    buffer [Draw] submits is the frame's vertices: for each command list,
    the vertices decoded from the consecutive indices of its index buffer,
    the drawing commands taking their [ElemCount] indices in turn. *)
Theorem Draw_renders (ui : UI) (L : Imgui.Layout) (mem : Imgui.Memory)
    (data : Imgui.DrawData) (m0 : Matrix.t) (tris0 : GLTriangles.t) :
  Spec.wf_frame ui data ->
  submitted <$> Draw (Render.withBuffer ui m0 tris0) L mem data
  = Some (Render.frame ui L mem data).
Proof. intros Hwf. now rewrite (Draw_exact ui L mem data m0 tris0 Hwf). Qed.

Lemma Draw_renders_witness :
  submitted <$> Draw (Render.withBuffer Spec.sampleUI Matrix.IM
                        (replicate 9 GLTriangles.fresh))
                     Spec.sampleLayout Spec.sampleMemory Spec.sampleData
  = Some (Render.frame Spec.sampleUI Spec.sampleLayout Spec.sampleMemory Spec.sampleData).
Proof. exact (Draw_renders _ _ _ _ _ _ sampleData_wf). Defined.

(** X2. [Draw] calls the user callbacks of the frame once each, in the
    order of the commands, and none for a drawing command. *)
Theorem Draw_callbacks (ui : UI) (L : Imgui.Layout) (mem : Imgui.Memory)
    (data : Imgui.DrawData) (m0 : Matrix.t) (tris0 : GLTriangles.t) :
  Spec.wf_frame ui data ->
  callbacks <$> Draw (Render.withBuffer ui m0 tris0) L mem data
  = Some (map Imgui.UserCallback
              (List.filter Imgui.HasUserCallback (Spec.frameCommands data))).
Proof. intros Hwf. now rewrite (Draw_exact ui L mem data m0 tris0 Hwf). Qed.

Lemma Draw_callbacks_witness :
  callbacks <$> Draw (Render.withBuffer Spec.sampleUI Matrix.IM [])
                     Spec.sampleLayout Spec.sampleMemory Spec.sampleData
  = Some (map Imgui.UserCallback
              (List.filter Imgui.HasUserCallback (Spec.frameCommands Spec.sampleData))).
Proof. exact (Draw_callbacks _ _ _ _ _ _ sampleData_wf). Defined.

(** X3. Drawing the same draw data again, from the state the first call
    left, yields the same result and leaves the same state. *)
Theorem Draw_again (ui : UI) (L : Imgui.Layout) (mem : Imgui.Memory)
    (data : Imgui.DrawData) :
  Spec.wf_frame ui data ->
  exists r,
    Draw ui L mem data = Some r /\ Draw (ui_after r) L mem data = Some r.
Proof.
  intros Hwf. eexists. split.
  - replace ui with (Render.withBuffer ui (matrix ui) (shaderTris ui)) at 1
      by (now destruct ui).
    apply (Draw_exact ui L mem data _ _ Hwf).
  - cbn [ui_after]. apply (Draw_exact ui L mem data _ _ Hwf).
Qed.

Lemma Draw_again_witness :
  exists r,
    Draw Spec.sampleUI Spec.sampleLayout Spec.sampleMemory Spec.sampleData = Some r /\
    Draw (ui_after r) Spec.sampleLayout Spec.sampleMemory Spec.sampleData = Some r.
Proof. exact (Draw_again _ _ _ _ sampleData_wf). Defined.

(** X4. On an atlas without texture [Draw] panics, whatever the draw
    data: [Textures()[0]] is indexed for the draw call even when no
    vertex was translated. *)
Theorem Draw_without_texture (ui : UI) (L : Imgui.Layout) (mem : Imgui.Memory)
    (data : Imgui.DrawData) :
  Pixel.Textures (atlas ui) = [] -> Draw ui L mem data = None.
Proof.
  intros H. unfold Draw.
  destruct (foldM _ data _) as [st|]; [|reflexivity]. cbn [mbind option_bind].
  destruct (GLTriangles.SetLen _ _) as [tris|]; [|reflexivity]. cbn [mbind option_bind].
  change (atlas (updateMatrix ui)) with (atlas ui). now rewrite H.
Qed.

Lemma Draw_without_texture_witness :
  Draw (mkUI (win Spec.sampleUI) (io Spec.sampleUI) Matrix.IM []
             (Pixel.mkAtlas (fun _ => None) []) 1)
       Spec.sampleLayout Spec.sampleMemory [] = None.
Proof. apply Draw_without_texture. reflexivity. Defined.

(** The colour channel [pixel.ToRGBA] makes of a byte. *)
Lemma channel_unit (v : Z) :
  0 <= v < 2 ^ 8 ->
  let x := (RGBA.of_uint32 (Color.widen v) / 65535)%float in
  PrimFloat.leb 0 x = true /\ PrimFloat.leb x 1 = true /\
  PrimFloat.eqb x 0 = (v =? 0) /\ PrimFloat.eqb x 1 = (v =? 255).
Proof.
  intros Hv x.
  assert (Hall : forallb (fun v =>
                   let x := (RGBA.of_uint32 (Color.widen v) / 65535)%float in
                   PrimFloat.leb 0 x && PrimFloat.leb x 1
                   && Bool.eqb (PrimFloat.eqb x 0) (v =? 0)
                   && Bool.eqb (PrimFloat.eqb x 1) (v =? 255))
                 (seqZ 0 256) = true) by (vm_compute; reflexivity).
  rewrite forallb_forall in Hall. specialize (Hall v).
  cbv zeta in Hall. fold x in Hall.
  assert (Hin : In v (seqZ 0 256)).
  { apply list_elem_of_In, elem_of_seqZ. lia. }
  apply Hall in Hin. rewrite !andb_true_iff in Hin.
  destruct Hin as [[[H0 H1] Hz] Ho].
  apply Bool.eqb_prop in Hz, Ho. auto.
Qed.

Lemma uint8_range (z : Z) : 0 <= GoInt.uint8 z < 2 ^ 8.
Proof. apply Z.mod_pos_bound. lia. Qed.

(** X5. Every channel of the colour [Draw] gives a vertex lies between 0
    and 1, whatever the packed colour; alpha is exactly 1 when the highest
    byte is 255 and exactly 0 when it is 0. *)
Theorem vertex_color_unit (c : Z) :
  let p := RGBA.ToRGBA (imguiColorToPixelColor c) in
  Forall (fun x => PrimFloat.leb 0 x = true /\ PrimFloat.leb x 1 = true)
         [RGBA.R p; RGBA.G p; RGBA.B p; RGBA.A p] /\
  PrimFloat.eqb (RGBA.A p) 1 = (Color.A (imguiColorToPixelColor c) =? 255) /\
  PrimFloat.eqb (RGBA.A p) 0 = (Color.A (imguiColorToPixelColor c) =? 0).
Proof.
  intros p. unfold p, RGBA.ToRGBA, imguiColorToPixelColor. cbn [Color.R Color.G Color.B Color.A RGBA.R RGBA.G RGBA.B RGBA.A].
  split; [|split].
  - repeat constructor; apply (channel_unit _ (uint8_range _)).
  - apply (channel_unit _ (uint8_range _)).
  - apply (channel_unit _ (uint8_range _)).
Qed.

Lemma Draw_exact_here (ui : UI) (L : Imgui.Layout) (mem : Imgui.Memory)
    (data : Imgui.DrawData) :
  Spec.wf_frame ui data ->
  Draw ui L mem data
  = Some (mkDrawn
            (Render.withBuffer ui (matrix (updateMatrix ui)) (Render.frame ui L mem data))
            (Render.frame ui L mem data)
            (default (Rect.R 0 0 0 0) (head (Pixel.Textures (atlas ui))))
            (Render.userCallbacks data)).
Proof.
  intros Hwf. rewrite <- (Draw_exact ui L mem data (matrix ui) (shaderTris ui) Hwf).
  now destruct ui.
Qed.

Lemma frame_app (ui : UI) (L : Imgui.Layout) (mem : Imgui.Memory)
    (d1 d2 : Imgui.DrawData) :
  Render.frame ui L mem (d1 ++ d2) = Render.frame ui L mem d1 ++ Render.frame ui L mem d2.
Proof. unfold Render.frame. now rewrite map_app, concat_app. Qed.

Lemma wf_frame_app (ui : UI) (d1 d2 : Imgui.DrawData) :
  Spec.wf_frame ui (d1 ++ d2) -> Spec.wf_frame ui d1 /\ Spec.wf_frame ui d2.
Proof.
  unfold Spec.wf_frame, Spec.frameElemCount, Spec.frameCommands.
  rewrite map_app, concat_app, elemCount_app, Forall_app.
  intros (Htex & [H1 H2] & Hfit).
  pose proof (elemCount_nonneg ui _ H1). pose proof (elemCount_nonneg ui _ H2).
  repeat split; auto; lia.
Qed.

(** X14. Command lists are translated independently of each other: the
    triangles and the callbacks of a frame made of two runs of command
    lists are those of the first run followed by those of the second. *)
Theorem Draw_lists_independent (ui : UI) (L : Imgui.Layout) (mem : Imgui.Memory)
    (d1 d2 : Imgui.DrawData) :
  Spec.wf_frame ui (d1 ++ d2) ->
  exists r r1 r2,
    Draw ui L mem (d1 ++ d2) = Some r /\
    Draw ui L mem d1 = Some r1 /\
    Draw ui L mem d2 = Some r2 /\
    submitted r = submitted r1 ++ submitted r2 /\
    callbacks r = callbacks r1 ++ callbacks r2.
Proof.
  intros Hwf. destruct (wf_frame_app ui d1 d2 Hwf) as [Hwf1 Hwf2].
  rewrite (Draw_exact_here ui L mem _ Hwf), (Draw_exact_here ui L mem _ Hwf1),
    (Draw_exact_here ui L mem _ Hwf2).
  eexists _, _, _. repeat split; cbn [submitted callbacks].
  - apply frame_app.
  - unfold Render.userCallbacks, Spec.frameCommands.
    now rewrite map_app, concat_app, List.filter_app, map_app.
Qed.

Lemma Draw_lists_independent_witness :
  exists r r1 r2,
    Draw Spec.sampleUI Spec.sampleLayout Spec.sampleMemory
         ([Imgui.mkDrawList [Spec.glyphs; Spec.userCallback; Spec.image] 4096 8192]
          ++ [Imgui.mkDrawList [] 0 0]) = Some r /\
    Draw Spec.sampleUI Spec.sampleLayout Spec.sampleMemory
         [Imgui.mkDrawList [Spec.glyphs; Spec.userCallback; Spec.image] 4096 8192]
    = Some r1 /\
    Draw Spec.sampleUI Spec.sampleLayout Spec.sampleMemory [Imgui.mkDrawList [] 0 0]
    = Some r2 /\
    submitted r = submitted r1 ++ submitted r2 /\
    callbacks r = callbacks r1 ++ callbacks r2.
Proof.
  exact (Draw_lists_independent Spec.sampleUI Spec.sampleLayout Spec.sampleMemory
           [Imgui.mkDrawList [Spec.glyphs; Spec.userCallback; Spec.image] 4096 8192]
           [Imgui.mkDrawList [] 0 0] sampleData_wf).
Defined.

(** ** More on the button callback *)

Lemma SetKeysData_same (io : Imgui.IO) : Imgui.SetKeysData (Imgui.KeysData io) io = io.
Proof. now destruct io. Qed.

Lemma buttonCallback_others (E : Pixel.ButtonEnum) (button : Z)
    (action : Pixel.Action) (io io' : Imgui.IO) :
  buttonCallback E button action io = Some io' ->
  Imgui.WantCaptureMouse io' = Imgui.WantCaptureMouse io /\
  Imgui.WantCaptureKeyboard io' = Imgui.WantCaptureKeyboard io /\
  length (Imgui.KeysData io') = length (Imgui.KeysData io) /\
  forall j : nat, Z.of_nat j <> mappedVal E button ->
                  Imgui.KeysData io' !! j = Imgui.KeysData io !! j.
Proof.
  unfold buttonCallback.
  destruct (Pixel.IsKeyboardButton E button); cbn [negb].
  - assert (Hset : forall v kd', setDownAt (mappedVal E button) v (Imgui.KeysData io) = Some kd' ->
                     length kd' = length (Imgui.KeysData io) /\
                     forall j : nat, Z.of_nat j <> mappedVal E button ->
                                     kd' !! j = Imgui.KeysData io !! j).
    { intros v kd'. unfold setDownAt.
      destruct (_ && _) eqn:Hin; [|discriminate]. intros [= <-].
      apply andb_true_iff in Hin as [Hlo%Z.leb_le _].
      split; [apply length_alter|].
      intros j Hj. apply list_lookup_alter_ne. lia. }
    destruct action; cbn [mbind option_bind].
    + destruct (setDownAt _ false _) as [kd'|] eqn:Hkd; [|discriminate].
      intros [= <-]. cbn. destruct (Hset _ _ Hkd). auto.
    + destruct (setDownAt _ true _) as [kd'|] eqn:Hkd; [|discriminate].
      intros [= <-]. cbn. destruct (Hset _ _ Hkd). auto.
    + intros [= <-]. cbn. auto.
  - intros [= <-]. auto.
Qed.

(** X6. Whatever the button, the action and the key-state table, a call of
    the callback that returns leaves the capture flags and the size of the
    table as they are, and changes no slot but the one the button is
    mapped to. *)
Theorem buttonCallback_frame (E : Pixel.ButtonEnum) (button : Z)
    (action : Pixel.Action) (io io' : Imgui.IO) :
  buttonCallback E button action io = Some io' ->
  Imgui.WantCaptureMouse io' = Imgui.WantCaptureMouse io /\
  Imgui.WantCaptureKeyboard io' = Imgui.WantCaptureKeyboard io /\
  length (Imgui.KeysData io') = length (Imgui.KeysData io) /\
  forall j : nat, Z.of_nat j <> mappedVal E button ->
                  Imgui.KeysData io' !! j = Imgui.KeysData io !! j.
Proof. apply buttonCallback_others. Qed.

Lemma buttonCallback_frame_witness :
  let io := Imgui.mkIO (Spec.releasedKeys 155) true false in
  let io' := Imgui.mkIO (alter (Imgui.SetDown true) 0%nat (Spec.releasedKeys 155))
                        true false in
  buttonCallback Spec.glfwButtons 258 Pixel.Press io = Some io' /\
  Imgui.WantCaptureMouse io' = Imgui.WantCaptureMouse io /\
  Imgui.WantCaptureKeyboard io' = Imgui.WantCaptureKeyboard io /\
  length (Imgui.KeysData io') = length (Imgui.KeysData io) /\
  forall j : nat, Z.of_nat j <> mappedVal Spec.glfwButtons 258 ->
                  Imgui.KeysData io' !! j = Imgui.KeysData io !! j.
Proof.
  intros io io'.
  assert (H : buttonCallback Spec.glfwButtons 258 Pixel.Press io = Some io')
    by (vm_compute; reflexivity).
  split; [exact H|]. exact (buttonCallback_frame _ _ _ _ _ H).
Defined.

(** X7. A press or a release of a keyboard button whose slot lies outside
    the key-state table panics (the array index is out of range); a repeat
    never indexes the table and returns the IO state unchanged. *)
Theorem buttonCallback_out_of_range (E : Pixel.ButtonEnum) (button : Z) (io : Imgui.IO) :
  Pixel.IsKeyboardButton E button = true ->
  ~ (0 <= mappedVal E button < Z.of_nat (length (Imgui.KeysData io))) ->
  buttonCallback E button Pixel.Press io = None /\
  buttonCallback E button Pixel.Release io = None /\
  buttonCallback E button Pixel.Repeat io = Some io.
Proof.
  intros Hkb Hout. unfold buttonCallback, setDownAt. rewrite Hkb. cbn [negb].
  destruct (Z.leb_spec 0 (mappedVal E button));
    destruct (Z.ltb_spec (mappedVal E button) (Z.of_nat (length (Imgui.KeysData io))));
    try lia; cbn; rewrite SetKeysData_same; auto.
Qed.

Lemma buttonCallback_out_of_range_witness :
  let io := Imgui.mkIO (Spec.releasedKeys 60) false false in
  buttonCallback Spec.glfwButtons 66 Pixel.Press io = None /\
  buttonCallback Spec.glfwButtons 66 Pixel.Release io = None /\
  buttonCallback Spec.glfwButtons 66 Pixel.Repeat io = Some io.
Proof.
  intros io. apply buttonCallback_out_of_range; [reflexivity|].
  vm_compute. intros [_ H]. discriminate H.
Defined.

Lemma alter_fixed {A : Type} (f : A -> A) (l : list A) (i : nat) (x : A) :
  l !! i = Some x -> f x = x -> alter f i l = l.
Proof.
  revert i. induction l as [|a l IH]; intros [|i] Hl Hf; try discriminate; simpl in *.
  - injection Hl as ->. now rewrite Hf.
  - f_equal. now apply IH.
Qed.

(** X8. Pressing and then releasing a keyboard button whose key was up
    gives back the IO state the press started from. *)
Theorem press_then_release (E : Pixel.ButtonEnum) (button : Z) (io : Imgui.IO)
    (k : Imgui.KeyData) :
  Pixel.IsKeyboardButton E button = true ->
  0 <= mappedVal E button ->
  Imgui.KeysData io !! Z.to_nat (mappedVal E button) = Some k ->
  Imgui.Down k = false ->
  buttonCallback E button Pixel.Press io ≫= buttonCallback E button Pixel.Release
  = Some io.
Proof.
  intros Hkb Hlo Hk Hup.
  pose proof (lookup_lt_Some _ _ _ Hk) as Hlt.
  assert (Hin : forall kd : list Imgui.KeyData, length kd = length (Imgui.KeysData io) ->
                  (0 <=? mappedVal E button)
                  && (mappedVal E button <? Z.of_nat (length kd)) = true).
  { intros kd ->. apply andb_true_iff. split; [apply Z.leb_le | apply Z.ltb_lt]; lia. }
  unfold buttonCallback, setDownAt. rewrite Hkb. cbn [negb]. cbv zeta.
  rewrite (Hin _ eq_refl). cbn [mbind option_bind Imgui.KeysData Imgui.SetKeysData].
  rewrite (Hin _ (length_alter _ _ _)). cbn [mbind option_bind].
  rewrite list_alter_alter_eq.
  rewrite (alter_fixed _ _ _ k Hk); [now destruct io|].
  destruct k; cbn in *. now subst.
Qed.

Lemma press_then_release_witness :
  let io := Imgui.mkIO (Spec.releasedKeys 155) false false in
  buttonCallback Spec.glfwButtons 258 Pixel.Press io
    ≫= buttonCallback Spec.glfwButtons 258 Pixel.Release = Some io.
Proof.
  intros io.
  apply (press_then_release Spec.glfwButtons 258 io (Imgui.mkKeyData false 0 0 0));
    try reflexivity; vm_compute; discriminate.
Defined.

Lemma assoc_value_unique {K V : Type} (l : list (K * V)) (a b : K) (v : V) :
  NoDup (map snd l) -> In (a, v) l -> In (b, v) l -> a = b.
Proof.
  induction l as [|[k w] l IH]; intros Hnd Ha Hb; [easy|].
  simpl in *. apply NoDup_cons in Hnd as [Hnotin Hnd].
  assert (Hsnd : forall c, In (c, v) l -> v ∈ map snd l).
  { intros c Hc. apply list_elem_of_In. change v with (snd (c, v)). now apply in_map. }
  destruct Ha as [Ha|Ha], Hb as [Hb|Hb].
  - congruence.
  - injection Ha as -> ->. exfalso. eauto.
  - injection Hb as -> ->. exfalso. eauto.
  - now apply IH.
Qed.

Lemma keyMap_values_NoDup : NoDup (map snd keyMap).
Proof. apply (bool_decide_unpack _). vm_compute. exact I. Qed.

(** X9. The table maps distinct buttons to distinct keys: an event for one
    button of [keyMap] never changes the key-state slot of another. *)
Theorem mapped_keys_independent (E : Pixel.ButtonEnum)
    (nb1 nb2 : Pixel.NamedButton) (key1 key2 : Z)
    (action : Pixel.Action) (io io' : Imgui.IO) :
  Pixel.wf_enum E ->
  In (nb1, key1) keyMap -> In (nb2, key2) keyMap -> nb1 <> nb2 ->
  buttonCallback E (Pixel.code E nb1) action io = Some io' ->
  Imgui.KeysData io' !! Z.to_nat (Spec.slotOf key2)
  = Imgui.KeysData io !! Z.to_nat (Spec.slotOf key2).
Proof.
  intros Hwf H1 H2 Hne Hcb.
  destruct (buttonCallback_others _ _ _ _ _ Hcb) as (_ & _ & _ & Hother).
  apply Hother. rewrite (mappedVal_named E nb1 key1 Hwf H1).
  pose proof (keyMap_slots nb2 key2 H2) as Hs2.
  rewrite Z2Nat.id by lia. unfold Spec.slotOf. intros Heq.
  assert (key1 = key2) as -> by lia.
  apply Hne. exact (assoc_value_unique keyMap nb1 nb2 key2 keyMap_values_NoDup H1 H2).
Qed.

Lemma mapped_keys_independent_witness :
  let io := Imgui.mkIO (Spec.releasedKeys 155) false false in
  let io' := Imgui.mkIO (alter (Imgui.SetDown true) 0%nat (Spec.releasedKeys 155))
                        false false in
  buttonCallback Spec.glfwButtons 258 Pixel.Press io = Some io' /\
  Imgui.KeysData io' !! Z.to_nat (Spec.slotOf Imgui.KeyA)
  = Imgui.KeysData io !! Z.to_nat (Spec.slotOf Imgui.KeyA).
Proof.
  intros io io'.
  assert (H : buttonCallback Spec.glfwButtons 258 Pixel.Press io = Some io')
    by (vm_compute; reflexivity).
  split; [exact H|].
  apply (mapped_keys_independent Spec.glfwButtons Pixel.KeyTab Pixel.KeyA
           Imgui.KeyTab Imgui.KeyA Pixel.Press io io' glfwButtons_wf).
  - simpl. tauto.
  - simpl. tauto.
  - discriminate.
  - exact H.
Defined.

(** X10. The fallback does not keep clear of the mapped keys: a keyboard
    button outside [keyMap] whose code plus 8 is the slot of a key of
    [keyMap] drives that key exactly as the mapped button does. *)
Theorem fallback_aliases_mapped_key (E : Pixel.ButtonEnum) (button : Z)
    (nb : Pixel.NamedButton) (key : Z) (action : Pixel.Action) (io : Imgui.IO) :
  Pixel.wf_enum E ->
  In (nb, key) keyMap ->
  (forall nb', Pixel.code E nb' <> button) ->
  button + 8 = Spec.slotOf key ->
  Pixel.IsKeyboardButton E button = Pixel.IsKeyboardButton E (Pixel.code E nb) ->
  buttonCallback E button action io = buttonCallback E (Pixel.code E nb) action io.
Proof.
  intros Hwf Hin Hne Hslot Hkb. unfold buttonCallback.
  pose proof (keyMap_slots nb key Hin) as Hs.
  rewrite Hkb, (mappedVal_named E nb key Hwf Hin),
    (mappedVal_unnamed E button Hne ltac:(lia)), Hslot.
  reflexivity.
Qed.

Lemma fallback_aliases_mapped_key_witness :
  let io := Imgui.mkIO (Spec.releasedKeys 155) false false in
  buttonCallback Spec.glfwButtons 47 Pixel.Press io
  = buttonCallback Spec.glfwButtons 86 Pixel.Press io.
Proof.
  intros io.
  apply (fallback_aliases_mapped_key Spec.glfwButtons 47 Pixel.KeyV Imgui.KeyV
           Pixel.Press io glfwButtons_wf).
  - simpl. tauto.
  - intros nb'; destruct nb'; discriminate.
  - reflexivity.
  - reflexivity.
Defined.

(** ** The input queries and the cursor *)

Lemma isMouseButton_code (B : Input.Buttons) (m : Input.MouseButton) :
  Input.isMouseButton B (Input.mouseCode B m) = true.
Proof.
  unfold Input.isMouseButton. apply existsb_exists. exists m.
  split; [destruct m; simpl; tauto | apply Z.eqb_refl].
Qed.

Lemma isMouseButton_other (B : Input.Buttons) (button : Z) :
  (forall m, Input.mouseCode B m <> button) -> Input.isMouseButton B button = false.
Proof.
  intros Hne. unfold Input.isMouseButton. simpl.
  repeat match goal with
         | |- context [Input.mouseCode B ?m =? button] =>
             destruct (Z.eqb_spec (Input.mouseCode B m) button) as [Heq|_];
             [now apply Hne in Heq|]
         end.
  reflexivity.
Qed.

(** X11. The four button queries report a button only if the window does
    and the GUI library does not want it: a mouse button is hidden exactly
    by the mouse capture, any other button exactly by the keyboard
    capture. *)
Theorem queries_gated_by_capture (ui : UI) (B : Input.Buttons) :
  (forall m,
      let b := Input.mouseCode B m in
      Input.Pressed ui B b = negb (Imgui.WantCaptureMouse (io ui)) && Input.winPressed B b /\
      Input.JustPressed ui B b
      = negb (Imgui.WantCaptureMouse (io ui)) && Input.winJustPressed B b /\
      Input.JustReleased ui B b
      = negb (Imgui.WantCaptureMouse (io ui)) && Input.winJustReleased B b /\
      Input.Repeated ui B b
      = negb (Imgui.WantCaptureMouse (io ui)) && Input.winRepeated B b) /\
  (forall b,
      (forall m, Input.mouseCode B m <> b) ->
      Input.Pressed ui B b = negb (Imgui.WantCaptureKeyboard (io ui)) && Input.winPressed B b /\
      Input.JustPressed ui B b
      = negb (Imgui.WantCaptureKeyboard (io ui)) && Input.winJustPressed B b /\
      Input.JustReleased ui B b
      = negb (Imgui.WantCaptureKeyboard (io ui)) && Input.winJustReleased B b /\
      Input.Repeated ui B b
      = negb (Imgui.WantCaptureKeyboard (io ui)) && Input.winRepeated B b).
Proof.
  split.
  - intros m b. unfold Input.Pressed, Input.JustPressed, Input.JustReleased,
      Input.Repeated, Input.inputWant. subst b. rewrite isMouseButton_code. auto.
  - intros b Hb. unfold Input.Pressed, Input.JustPressed, Input.JustReleased,
      Input.Repeated, Input.inputWant. rewrite (isMouseButton_other B b Hb). auto.
Qed.

Lemma queries_gated_by_capture_witness :
  let ui := Render.withBuffer
              (mkUI (win Spec.sampleUI) (Imgui.mkIO [] true false) Matrix.IM []
                    Spec.sampleAtlas 1) Matrix.IM [] in
  Input.Pressed ui Input.sampleButtons 0 = false /\
  Input.Pressed ui Input.sampleButtons 65 = true /\
  Input.JustPressed ui Input.sampleButtons 65 = true.
Proof.
  intros ui.
  destruct (queries_gated_by_capture ui Input.sampleButtons) as [Hmouse Hkey].
  destruct (Hmouse Input.MouseButton1) as (Hp & _).
  destruct (Hkey 65 ltac:(intros m; destruct m; discriminate)) as (Hk & Hj & _).
  split; [etransitivity; [exact Hp | reflexivity]|].
  split; (etransitivity; [first [exact Hk | exact Hj] | reflexivity]).
Defined.

(** X12. After [initIO] the cursor [prepareIO] sets is never nil: the
    five shapes [initIO] names get their standard cursor, whatever the map
    held before, and every other shape gets what the map held for it or,
    failing that, the arrow. *)
Theorem cursor_resolved (cursors : Input.Cursors) (requested : Z) :
  Input.prepareIO_cursor (Input.initIO_cursors cursors) requested
  = Some (if requested =? Input.MouseCursorResizeNS then Input.VResizeCursor
          else if requested =? Input.MouseCursorResizeEW then Input.HResizeCursor
          else if requested =? Input.MouseCursorHand then Input.HandCursor
          else if requested =? Input.MouseCursorTextInput then Input.IBeamCursor
          else if requested =? Input.MouseCursorArrow then Input.ArrowCursor
          else default Input.ArrowCursor (cursors !! requested)).
Proof.
  unfold Input.prepareIO_cursor, Input.initIO_cursors.
  destruct (Z.eqb_spec requested Input.MouseCursorResizeNS) as [->|H1];
    [now simplify_map_eq|].
  destruct (Z.eqb_spec requested Input.MouseCursorResizeEW) as [->|H2];
    [now simplify_map_eq|].
  destruct (Z.eqb_spec requested Input.MouseCursorHand) as [->|H3];
    [now simplify_map_eq|].
  destruct (Z.eqb_spec requested Input.MouseCursorTextInput) as [->|H4];
    [now simplify_map_eq|].
  destruct (Z.eqb_spec requested Input.MouseCursorArrow) as [->|H5];
    [now simplify_map_eq|].
  rewrite !lookup_insert_ne by congruence.
  destruct (cursors !! requested) as [c|]; [reflexivity|].
  now simplify_map_eq.
Qed.

(** ** The order of the corners of a clip rectangle *)

Lemma SFcompare_Eq (a b : spec_float) :
  SFcompare a b = Some Eq ->
  a = b \/ (exists s t, a = S754_zero s /\ b = S754_zero t).
Proof.
  destruct a as [sa|sa| |sa ma ea], b as [sb|sb| |sb mb eb]; simpl;
    try discriminate; try (destruct sa; discriminate); try (destruct sb; discriminate).
  - right. eauto.
  - destruct sa, sb; try discriminate; auto.
  - destruct sa, sb; try discriminate; intros H; injection H as H;
      destruct (Z.compare_spec ea eb) as [->|_|_]; try discriminate;
      [ apply CompOpp_iff in H; simpl in H | ];
      apply Pos.compare_eq in H; subst; auto.
Qed.

Lemma eqb_zero_spec (x : float) :
  PrimFloat.eqb x 0 = true -> exists s, Prim2SF x = S754_zero s.
Proof.
  rewrite FloatAxioms.eqb_spec. change (Prim2SF 0) with (S754_zero false).
  unfold SFeqb. destruct (SFcompare _ _) as [[]|] eqn:Hc; try discriminate. intros _.
  destruct (SFcompare_Eq _ _ Hc) as [H|(s & t & H & _)]; eauto.
Qed.

Lemma eqb_true_spec (x y : float) :
  PrimFloat.eqb x y = true ->
  x = y \/ (exists s t, Prim2SF x = S754_zero s /\ Prim2SF y = S754_zero t).
Proof.
  rewrite FloatAxioms.eqb_spec. unfold SFeqb.
  destruct (SFcompare _ _) as [[]|] eqn:Hc; try discriminate. intros _.
  destruct (SFcompare_Eq _ _ Hc) as [H|H]; [left; now apply Prim2SF_inj | now right].
Qed.

Lemma zero_eqb (x y : float) (s t : bool) :
  Prim2SF x = S754_zero s -> Prim2SF y = S754_zero t -> PrimFloat.eqb x y = true.
Proof. intros Hx Hy. now rewrite FloatAxioms.eqb_spec, Hx, Hy. Qed.

Lemma zero_eqb_0 (x : float) (s : bool) :
  Prim2SF x = S754_zero s -> PrimFloat.eqb x 0 = true.
Proof. intros Hx. now rewrite FloatAxioms.eqb_spec, Hx. Qed.

Lemma both_zero_sym (x y : float) :
  PrimFloat.eqb x 0 && PrimFloat.eqb x y = PrimFloat.eqb y 0 && PrimFloat.eqb y x.
Proof.
  rewrite (eqb_sym y x).
  destruct (PrimFloat.eqb x y) eqn:Hxy; [|now rewrite !andb_false_r].
  rewrite !andb_true_r.
  destruct (eqb_true_spec _ _ Hxy) as [->|(s & t & Hx & Hy)]; [reflexivity|].
  now rewrite (zero_eqb_0 _ _ Hx), (zero_eqb_0 _ _ Hy).
Qed.

Lemma is_neg_zero_spec (x : float) (s : bool) :
  Prim2SF x = S754_zero s -> Math.is_neg_zero x = s.
Proof.
  intros Hx. unfold Math.is_neg_zero. rewrite classify_spec, Hx. now destruct s.
Qed.

Lemma ltb_antisym (x y : float) : PrimFloat.ltb x y = true -> PrimFloat.ltb y x = false.
Proof.
  rewrite !ltb_spec. unfold SFltb. rewrite (SFcompare_antisym (Prim2SF x) (Prim2SF y)).
  destruct (SFcompare _ _) as [[]|]; simpl; congruence.
Qed.

Lemma not_ltb_eqb (x y : float) :
  is_nan x = false -> is_nan y = false ->
  PrimFloat.ltb x y = false -> PrimFloat.ltb y x = false -> PrimFloat.eqb x y = true.
Proof.
  intros Hx%not_nan_spec Hy%not_nan_spec. rewrite !ltb_spec, FloatAxioms.eqb_spec.
  unfold SFltb, SFeqb. rewrite (SFcompare_antisym (Prim2SF x) (Prim2SF y)).
  destruct (Prim2SF x) as [sx|sx| |sx mx ex], (Prim2SF y) as [sy|sy| |sy my ey];
    try congruence;
    match goal with |- context [SFcompare ?a ?b] => destruct (SFcompare a b) as [[]|] eqn:Hc end;
    simpl; try congruence; simpl in Hc; try discriminate;
    try (destruct sx; discriminate); try (destruct sy; discriminate).
Qed.

Lemma Min_comm (x y : float) : Math.Min x y = Math.Min y x.
Proof.
  unfold Math.Min.
  rewrite (orb_comm (PrimFloat.eqb y neg_infinity)), (orb_comm (is_nan y)),
    (both_zero_sym y x).
  destruct (_ || _); [reflexivity|].
  destruct (is_nan x || is_nan y) eqn:Hnan; [reflexivity|].
  apply orb_false_iff in Hnan as [Hx Hy].
  destruct (PrimFloat.eqb x 0 && PrimFloat.eqb x y) eqn:Hz.
  - apply andb_true_iff in Hz as [Hx0 Hxy].
    destruct (eqb_zero_spec x Hx0) as [s Hsx].
    destruct (eqb_true_spec x y Hxy) as [->|(s' & t & Hsx' & Hsy)].
    + now destruct (Math.is_neg_zero y).
    + rewrite (is_neg_zero_spec _ _ Hsx), (is_neg_zero_spec _ _ Hsy).
      rewrite Hsx in Hsx'. injection Hsx' as <-.
      destruct s, t; try reflexivity; apply Prim2SF_inj; congruence.
  - destruct (PrimFloat.ltb x y) eqn:Hlt.
    + now rewrite (ltb_antisym _ _ Hlt).
    + destruct (PrimFloat.ltb y x) eqn:Hgt; [reflexivity|].
      pose proof (not_ltb_eqb x y Hx Hy Hlt Hgt) as Hxy.
      destruct (eqb_true_spec x y Hxy) as [->|(s & t & Hsx & Hsy)]; [reflexivity|].
      rewrite (zero_eqb_0 _ _ Hsx), Hxy in Hz. discriminate Hz.
Qed.

Lemma Max_comm (x y : float) : Math.Max x y = Math.Max y x.
Proof.
  unfold Math.Max.
  rewrite (orb_comm (PrimFloat.eqb y infinity)), (orb_comm (is_nan y)),
    (both_zero_sym y x).
  destruct (_ || _); [reflexivity|].
  destruct (is_nan x || is_nan y) eqn:Hnan; [reflexivity|].
  apply orb_false_iff in Hnan as [Hx Hy].
  destruct (PrimFloat.eqb x 0 && PrimFloat.eqb x y) eqn:Hz.
  - apply andb_true_iff in Hz as [Hx0 Hxy].
    destruct (eqb_zero_spec x Hx0) as [s Hsx].
    destruct (eqb_true_spec x y Hxy) as [->|(s' & t & Hsx' & Hsy)].
    + now destruct (Math.is_neg_zero y).
    + rewrite (is_neg_zero_spec _ _ Hsx), (is_neg_zero_spec _ _ Hsy).
      rewrite Hsx in Hsx'. injection Hsx' as <-.
      destruct s, t; try reflexivity; apply Prim2SF_inj; congruence.
  - destruct (PrimFloat.ltb y x) eqn:Hgt.
    + now rewrite (ltb_antisym _ _ Hgt).
    + destruct (PrimFloat.ltb x y) eqn:Hlt; [reflexivity|].
      pose proof (not_ltb_eqb x y Hx Hy Hlt Hgt) as Hxy.
      destruct (eqb_true_spec x y Hxy) as [->|(s & t & Hsx & Hsy)]; [reflexivity|].
      rewrite (zero_eqb_0 _ _ Hsx), Hxy in Hz. discriminate Hz.
Qed.

(** X13. The clip rectangle [Draw] attaches does not depend on the order
    in which the command's rectangle lists its corners: exchanging the two
    x coordinates, the two y coordinates, or both, gives the same
    rectangle. *)
Theorem cmdClipRect_corner_order (m : Matrix.t) (cb : bool) (f n t : Z)
    (x1 y1 x2 y2 : float) :
  let clip r := cmdClipRect m (Imgui.mkDrawCmd cb f n r t) in
  clip (Imgui.mkVec4 x2 y2 x1 y1) = clip (Imgui.mkVec4 x1 y1 x2 y2) /\
  clip (Imgui.mkVec4 x2 y1 x1 y2) = clip (Imgui.mkVec4 x1 y1 x2 y2) /\
  clip (Imgui.mkVec4 x1 y2 x2 y1) = clip (Imgui.mkVec4 x1 y1 x2 y2).
Proof.
  intros clip. unfold clip, cmdClipRect, imguiRectToPixelRect, Rect.Norm, Rect.R.
  cbn [Imgui.ClipRect Imgui.X Imgui.Y Imgui.Z Imgui.W Rect.Min Rect.Max Vec.X Vec.Y].
  rewrite (Min_comm x2 x1), (Max_comm x2 x1), (Min_comm y2 y1), (Max_comm y2 y1).
  auto.
Qed.
